(** * Water Consumption Forecast API: a shallow embedding of [backend/main.py]

    The service loads a table of historical records and three pre-trained
    regressors once, and answers stateless requests over them.  This file
    embeds the request handlers ([predict], [compare], [metrics],
    [country_analysis]) together with the module-level values they read
    ([COUNTRIES], [FEATURE_COLUMNS], [model_map]) and proves the properties
    the specification states about them.

    Modelling conventions.
    - Numbers.  Python and NumPy floats are modelled by the real numbers
      [R]: arithmetic is exact, and there is no NaN, no infinity and no
      rounding.  Every statement about a numeric value below is a statement
      about this idealised arithmetic.
    - Strings are [string]: the UTF-8 bytes of the text.  [str.lower] is
      written out for the ASCII letters; what it does to a text with other
      characters is read from the case tables of the Python runtime, which
      are a parameter of the service ([unicode_lower]).
    - A pandas row is a finite map from column label to cell; a DataFrame
      handed to a regressor is its column labels together with its rows.
    - Exceptions and the order of external calls are explicit: a handler
      returns the trace of the calls it made (feature construction, model
      inference) and either a value or the exception it raised. *)

From Stdlib Require Import Reals Lra ZArith.
From stdpp Require Import base decidable option list sorting strings gmap.

#[global] Instance R_eq_dec : EqDecision R := Req_dec_T.

(** ** Data model *)

(** A cell of the table. *)
Inductive cell : Type :=
  | CStr (s : string)
  | CInt (n : Z)
  | CFloat (x : R)
  | CNaN.

(** One row of [df] after loading and cleaning.  The three columns the
    handlers address by name are typed; [covariates] holds every other
    column (population, the scarcity level, ...).  A missing country is
    [None] (pandas NaN, removed by [dropna]). *)
Record record : Type := mkRecord {
  Country : option string;
  Year : Z;
  Target : R;
  covariates : gmap string cell;
}.

(** A DataFrame as a regressor sees it. *)
Record frame : Type := mkFrame {
  columns : list string;
  rows : list (gmap string cell);
}.

(** A loaded model artifact: [model.predict(X)] either raises (the
    message of the exception is kept) or returns an array of numbers. *)
Record Model : Type := mkModel {
  run_predict : frame → string + list R;
}.

(** The request body of POST /predict. *)
Record PredictInput : Type := mkPredictInput {
  country : string;
  year : Z;
  models : list string;
}.

(** ** Exceptions, traces and the handler monad *)

Inductive exn : Type :=
  | HTTPException (status : Z) (detail : string)
  | PyException (kind : string) (msg : string).

(** [str(e)] as used in the f-string of [predict]. *)
Definition exn_str (e : exn) : string :=
  match e with
  | HTTPException _ d => d
  | PyException _ m => m
  end.

(** External work a handler performs, in the order it performs it. *)
Inductive event : Type :=
  | EvBuildFeatures (c : string)
  | EvPredict (model_key : string) (X : frame).

Inductive outcome (A : Type) : Type :=
  | Return (a : A)
  | Raise (e : exn).
Arguments Return {A} a.
Arguments Raise {A} e.

Definition M (A : Type) : Type := (list event * outcome A)%type.

#[global] Instance M_ret : MRet M := λ A a, ([], Return a).

#[global] Instance M_bind : MBind M := λ A B k m,
  match m with
  | (t, Return a) => let '(t', o) := k a in (t ++ t', o)
  | (t, Raise e) => (t, Raise e)
  end.

Definition raise {A} (e : exn) : M A := ([], Raise e).

Definition emit (ev : event) : M unit := ([ev], Return tt).

(** [try: body except Exception as e: handler e]. *)
Definition try_except {A} (body : M A) (handler : exn → M A) : M A :=
  match body with
  | (t, Raise e) => let '(t', o) := handler e in (t ++ t', o)
  | (t, Return a) => (t, Return a)
  end.

(** The status the framework answers with: the status of an
    [HTTPException], 500 for any other exception that leaves the handler,
    and 200 for a returned value.  The last case is the status of a value
    the framework can serialise, which every value of this model is: its
    numbers are reals.  A returned value that holds NaN or an infinity is
    answered with 500 instead; [r2_score] gives NaN for a country with a
    single row, so no status is stated for GET /metrics below, only that
    its handler returns. *)
Definition status_code {A} (o : outcome A) : Z :=
  match o with
  | Return _ => 200
  | Raise (HTTPException s _) => s
  | Raise (PyException _ _) => 500
  end.

Definition trace {A} (m : M A) : list event := m.1.
Definition result {A} (m : M A) : outcome A := m.2.

(** ** NumPy on one-dimensional arrays *)

Definition np_sum (xs : list R) : R := foldr Rplus 0%R xs.

Definition np_mean (xs : list R) : R := (np_sum xs / INR (length xs))%R.

(** [np.std]: the population standard deviation (ddof = 0). *)
Definition np_std (xs : list R) : R :=
  let m := np_mean xs in
  sqrt (np_mean (map (λ x, ((x - m) * (x - m))%R) xs)).

(** [arr[mask]] for a boolean mask: the mask must be as long as the
    array. *)
Definition np_mask (arr : list R) (mask : list bool) : M (list R) :=
  if decide (length arr = length mask)
  then mret (filter (λ p, p.2 = true) (zip arr mask)).*1
  else raise (PyException "IndexError"
                "boolean index did not match indexed array").

(** An elementwise operation [np.array(a) (op) np.array(b)] with NumPy's
    broadcasting of shapes [(n,)] and [(k,)]: equal lengths combine
    pointwise, a length-one operand is stretched, anything else raises
    [ValueError]. *)
Definition np_binop (f : R → R → R) (a b : list R) : M (list R) :=
  if decide (length a = length b) then mret (zip_with f a b)
  else match a, b with
       | [x], _ => mret (map (λ y, f x y) b)
       | _, [y] => mret (map (λ x, f x y) a)
       | _, _ => raise (PyException "ValueError"
                          "operands could not be broadcast together")
       end.

(** [mask.any()] *)
Definition np_any (mask : list bool) : bool := existsb (λ b, b) mask.

Definition np_sub : list R → list R → M (list R) := np_binop Rminus.
Definition np_div : list R → list R → M (list R) := np_binop Rdiv.

(** ** Python built-ins *)

(** What [str.lower] does to the ASCII letters: A..Z are mapped to a..z;
    every other byte is kept. *)
Definition lower_ascii (c : Ascii.ascii) : Ascii.ascii :=
  let n := Ascii.N_of_ascii c in
  if ((65 <=? n) && (n <=? 90))%N then Ascii.ascii_of_N (n + 32) else c.

Fixpoint ascii_lower (s : string) : string :=
  match s with
  | EmptyString => EmptyString
  | String c s' => String (lower_ascii c) (ascii_lower s')
  end.

(** [str.isascii]: every byte is below 128. *)
Fixpoint is_ascii (s : string) : bool :=
  match s with
  | EmptyString => true
  | String c s' => (Ascii.N_of_ascii c <? 128)%N && is_ascii s'
  end.

(** [d.get(k)] on a dict kept in insertion order. *)
Fixpoint dict_get {V} (d : list (string * V)) (k : string) : option V :=
  match d with
  | [] => None
  | (k', v) :: d' => if decide (k' = k) then Some v else dict_get d' k
  end.

(** [seq[0]] and [seq[-1]]. *)
Definition getitem_first (xs : list R) : M R :=
  match head xs with
  | Some x => mret x
  | None => raise (PyException "IndexError" "index 0 is out of bounds")
  end.

Definition getitem_last (xs : list R) : M R :=
  match last xs with
  | Some x => mret x
  | None => raise (PyException "IndexError" "index -1 is out of bounds")
  end.

(** ** pandas *)

(** [Series.unique()]: first occurrences, in order of appearance. *)
Fixpoint unique_from (seen : list string) (l : list string) : list string :=
  match l with
  | [] => []
  | x :: l' => if decide (x ∈ seen) then unique_from seen l'
               else x :: unique_from (x :: seen) l'
  end.

Definition unique (l : list string) : list string := unique_from [] l.

(** The order [sorted] uses on strings. *)
Definition string_le (a b : string) : Prop := String.leb a b = true.

#[global] Instance string_le_dec a b : Decision (string_le a b).
Proof. unfold string_le. apply _. Defined.

Definition year_le (r1 r2 : record) : Prop := (Year r1 ≤ Year r2)%Z.

#[global] Instance year_le_dec r1 r2 : Decision (year_le r1 r2).
Proof. unfold year_le. apply _. Defined.

#[global] Instance year_le_total : Total year_le.
Proof. intros r1 r2. unfold year_le. lia. Qed.

#[global] Instance year_le_trans : Transitive year_le.
Proof. intros r1 r2 r3. unfold year_le. lia. Qed.

(** [frame.sort_values("Year")].  pandas leaves the relative order of rows
    with equal years unspecified; the result is in any case the rows
    rearranged into non-decreasing year. *)
Definition sort_values_Year (l : list record) : list record :=
  merge_sort year_le l.

(** [X.iloc[-1:]]: the frame holding the last row only. *)
Definition iloc_last (X : frame) : frame :=
  {| columns := columns X;
     rows := match last (rows X) with Some r => [r] | None => [] end |}.

(** [X[col] = v]: every row gets [v] under [col]; a new label is appended
    to the columns. *)
Definition setitem (X : frame) (col : string) (v : cell) : frame :=
  {| columns := if decide (col ∈ columns X) then columns X
                else columns X ++ [col];
     rows := map (λ r, <[col := v]> r) (rows X) |}.

Definition TARGET_COL : string :=
  "Total Water Consumption(Billion Cubic Meters)".

(** The future row of [predict]: [X_hist.iloc[-1:].copy()] with the
    [Year] and [Country] columns assigned. *)
Definition X_pred (X_hist : frame) (country : string) (year : Z) : frame :=
  setitem (setitem (iloc_last X_hist) "Year" (CInt year))
          "Country" (CStr country).

(** ** Response payloads *)

Unset Elimination Schemes.
Inductive json : Type :=
  | JNull
  | JStr (s : string)
  | JInt (n : Z)
  | JNum (x : R)
  | JArr (l : list json)
  | JObj (o : list (string * json)).
Set Elimination Schemes.

Module PredictResponse.
Record t : Type := mk {
  model_used : string;
  years : list Z;
  values : list R;
  current : R;
  predicted : R;
  change : R;
  band : list (R * R);
  metrics : list (string * json);
}.

(** The dict literal returned by [predict], key by key. *)
Definition to_dict (r : t) : list (string * json) :=
  [ ("model_used", JStr (model_used r));
    ("years", JArr (map JInt (years r)));
    ("values", JArr (map JNum (values r)));
    ("current", JNum (current r));
    ("predicted", JNum (predicted r));
    ("change", JNum (change r));
    ("band", JArr (map (λ b, JArr [JNum b.1; JNum b.2]) (band r)));
    ("metrics", JObj (metrics r)) ].
End PredictResponse.

Module CompareResponse.
Record t : Type := mk {
  years : list Z;
  lasso : list R;
  ridge : list R;
  knn : list R;
}.
End CompareResponse.

Module MetricsEntry.
(** [None] is JSON [null]. *)
Record t : Type := mk {
  MAE : option R;
  RMSE : option R;
  R2 : option R;
  MAPE : option R;
}.
End MetricsEntry.

Module AnalysisResponse.
Record t : Type := mk {
  years : list Z;
  true_values : list R;
}.
End AnalysisResponse.

(** ** A small table and registry *)

(** The example of the specification: Brazil with the years 2018 to 2020
    and targets 100, 105 and 110, stored out of order among rows of another
    country and one row without a country. *)
Definition sample_row (c : string) (y : Z) (t : R) : record :=
  {| Country := Some c; Year := y; Target := t;
     covariates := {[ "Population" := CFloat 200%R;
                      "Water Scarcity Level" := CStr "Low" ]} |}.

Definition sample_df : list record :=
  [ sample_row "Brazil" 2019 105%R;
    sample_row "India" 2018 0%R;
    sample_row "Brazil" 2018 100%R;
    {| Country := None; Year := 2000; Target := 1%R; covariates := ∅ |};
    sample_row "Brazil" 2020 110%R;
    sample_row "India" 2019 0%R ].

Definition sample_columns : list string :=
  ["Country"; "Year"; "Population"; "Water Scarcity Level"; TARGET_COL].

Definition year_of (r : gmap string cell) : R :=
  match r !! "Year" with
  | Some (CInt y) => IZR y
  | _ => 0%R
  end.

(** A regressor that follows the year, one that answers a constant, and
    one whose [predict] raises. *)
Definition trend_model : Model :=
  mkModel (λ X, inr (map (λ r, (5 * (year_of r - 2018) + 100)%R) (rows X))).

Definition flat_model : Model :=
  mkModel (λ X, inr (map (λ _, 105%R) (rows X))).

Definition broken_model : Model :=
  mkModel (λ _, inl "Found unknown categories in column 0").

(** Metric functions with the behaviour assumed of [sklearn.metrics]. *)
Definition sample_metric (f : list R → list R → R)
    (y_true y_pred : list R) : string + R :=
  if decide (length y_true = length y_pred ∧ length y_true ≠ 0%nat)
  then inr (f y_true y_pred)
  else inl "Found input variables with inconsistent numbers of samples".

Definition sample_mae : list R → list R → string + R :=
  sample_metric (λ t p, np_mean (map Rabs (zip_with Rminus t p))).

Definition sample_mse : list R → list R → string + R :=
  sample_metric
    (λ t p, np_mean (map (λ e, (e * e)%R) (zip_with Rminus t p))).

Definition sample_r2 : list R → list R → string + R :=
  sample_metric
    (λ t p,
       (1 - np_sum (map (λ e, (e * e)%R) (zip_with Rminus t p))
            / np_sum (map (λ x, ((x - np_mean t) * (x - np_mean t))%R) t))%R).

(** ** Start-up: loading the artifacts *)

Definition MODELS_PATH : string := "models".

(** [os.path.join(a, b)] for a relative [b] on a POSIX system. *)
Definition os_path_join (a b : string) : string := a +:+ "/" +:+ b.

(** [load_model(file)].  The files the process can see are a finite map
    from path to content: a path that is absent does not exist; a present
    file is one [joblib.load] turns into a model, or one it fails on (the
    message of its exception is kept). *)
Definition load_model (fs : gmap string (string + Model)) (file : string)
  : M Model :=
  let path := os_path_join MODELS_PATH file in
  match fs !! path with
  | None => raise (PyException "RuntimeError"
                     ("Model file missing: " +:+ path))
  | Some (inr model) => mret model
  | Some (inl msg) => raise (PyException "Exception" msg)
  end.

(** The dict literal [model_map = {...}] evaluated at import time: the
    three loads happen in the order written. *)
Definition load_model_map (fs : gmap string (string + Model))
  : M (list (string * Model)) :=
  lasso ← load_model fs "lasso_fixed.pkl";
  ridge ← load_model fs "ridge_fixed.pkl";
  knn ← load_model fs "knn_fixed.pkl";
  mret [("lasso", lasso); ("ridge", ridge); ("knn", knn)].

(** The shapes [(n,)] and [(k,)] NumPy can broadcast together. *)
Definition broadcastable (n k : nat) : Prop := n = k ∨ n = 1%nat ∨ k = 1%nat.

(** The value a /compare response holds under a model key. *)
Definition compare_field (res : CompareResponse.t) (key : string) : list R :=
  if decide (key = "lasso") then CompareResponse.lasso res
  else if decide (key = "ridge") then CompareResponse.ridge res
  else if decide (key = "knn") then CompareResponse.knn res
  else [].

(** A file system holding the three artifacts, and one where the ridge
    artifact is absent. *)
Definition sample_fs : gmap string (string + Model) :=
  {[ "models/lasso_fixed.pkl" := inr flat_model;
     "models/ridge_fixed.pkl" := inr broken_model;
     "models/knn_fixed.pkl" := inr trend_model ]}.

Definition sample_fs_no_ridge : gmap string (string + Model) :=
  delete "models/ridge_fixed.pkl" sample_fs.

(** A fragment of the case tables: KELVIN SIGN (U+212A, the bytes
    E2 84 AA in UTF-8) is lowered to [k]; every other byte is kept. *)
Definition is_kelvin_sign (a b c : Ascii.ascii) : bool :=
  ((Ascii.N_of_ascii a =? 226) && (Ascii.N_of_ascii b =? 132)
   && (Ascii.N_of_ascii c =? 170))%N.

Fixpoint sample_unicode_lower (s : string) : string :=
  match s with
  | EmptyString => EmptyString
  | String a t =>
      match t with
      | String b (String c rest) =>
          if is_kelvin_sign a b c
          then "k" +:+ sample_unicode_lower rest
          else String a (sample_unicode_lower t)
      | _ => String a (sample_unicode_lower t)
      end
  end.

(** The text KELVIN SIGN, N, N. *)
Definition kelvin_NN : string :=
  String (Ascii.ascii_of_N 226)
    (String (Ascii.ascii_of_N 132) (String (Ascii.ascii_of_N 170) "NN")).

(** ** The service *)

Section ForecastService.

(** The table read from the CSV file, after the population column has
    been cleaned, and its column labels in file order. *)
Variable df : list record.
Variable df_columns : list string.

(** The three artifacts [load_model] reads at start-up. *)
Variables lasso_fixed ridge_fixed knn_fixed : Model.

(** [sklearn.metrics]: each function returns a number or raises. *)
Variables mean_absolute_error mean_squared_error r2_score :
  list R → list R → string + R.

(** The case tables of the Python runtime: what [str.lower] returns for a
    text that holds a character outside ASCII (for instance the text
    [k] for KELVIN SIGN, U+212A).  The tables are not part of the
    repository; nothing is assumed about them. *)
Variable unicode_lower : string → string.

(** [sorted(df["Country"].dropna().unique().tolist())] *)
Definition COUNTRIES : list string :=
  merge_sort string_le (unique (omap Country df)).

(** [X_all = df.drop(columns=[TARGET_COL])] *)
Definition X_all_columns : list string :=
  filter (λ c, c ≠ TARGET_COL) df_columns.

Definition categorical_features : list string :=
  ["Country"; "Water Scarcity Level"].

Definition numerical_features : list string :=
  filter (λ c, c ∉ categorical_features) X_all_columns.

Definition FEATURE_COLUMNS : list string :=
  numerical_features ++ categorical_features.

Definition model_map : list (string * Model) :=
  [("lasso", lasso_fixed); ("ridge", ridge_fixed); ("knn", knn_fixed)].

(** All cells of a row of [df], by column label. *)
Definition cells (r : record) : gmap string cell :=
  <["Country" := from_option CStr CNaN (Country r)]>
    (<["Year" := CInt (Year r)]>
       (<[TARGET_COL := CFloat (Target r)]> (covariates r))).

(** [hist[cols]] *)
Definition getitem_columns (hist : list record) (cols : list string) : frame :=
  {| columns := cols;
     rows := map (λ r, filter (λ kv : string * cell, kv.1 ∈ cols) (cells r))
                 hist |}.

(** [df[df["Country"] == country].sort_values("Year")] *)
Definition history (country : string) : list record :=
  sort_values_Year (filter (λ r, Country r = Some country) df).

(** [model.predict(X)], recorded in the trace. *)
Definition call_predict (key : string) (model : Model) (X : frame)
  : M (list R) :=
  _ ← emit (EvPredict key X);
  match run_predict model X with
  | inr ys => mret ys
  | inl msg => raise (PyException "Exception" msg)
  end.

Definition build_features (country : string)
  : M (list record * frame * list R) :=
  _ ← emit (EvBuildFeatures country);
  let hist := history country in
  match hist with
  | [] => raise (PyException "ValueError"
                   ("No data for country " +:+ country))
  | _ :: _ =>
      let X_hist := getitem_columns hist FEATURE_COLUMNS in
      let y_true := map Target hist in
      mret (hist, X_hist, y_true)
  end.

(** [m.lower()].  On an ASCII text [str.lower] maps A..Z to a..z and
    keeps every other character.  On any other text it also consults the
    case tables.  It lowers an ASCII letter the same way wherever the
    letter stands, and what it does to another character does not depend
    on the case of the letters around it, so the ASCII letters are
    lowered here first and the tables are given the rest. *)
Definition lower (m : string) : string :=
  let t := ascii_lower m in
  if is_ascii t then t else unicode_lower t.

(** The [for ... else] loop of [predict] that picks the model. *)
Fixpoint select (names : list string) : string * Model :=
  match names with
  | [] => ("lasso", lasso_fixed)
  | m :: rest =>
      let m := lower m in
      match dict_get model_map m with
      | Some model => (m, model)
      | None => select rest
      end
  end.

(** POST /predict *)
Definition predict (body : PredictInput) : M PredictResponse.t :=
  let country := country body in
  let year := year body in
  if decide (country ∉ COUNTRIES)
  then raise (HTTPException 400 ("Invalid country: " +:+ country))
  else
    '(hist, X_hist, y_true) ← build_features country;
    let X_pred := X_pred X_hist country year in
    let '(model_key, model) := select (models body) in
    '(y_fit, y_future) ←
      try_except
        (y_fit ← call_predict model_key model X_hist;
         p ← call_predict model_key model X_pred;
         y_future ← getitem_first p;
         mret (y_fit, y_future))
        (λ e, raise (HTTPException 500
                       ("Prediction failed: " +:+ exn_str e)));
    current ← getitem_last y_fit;
    let change :=
      if decide (current ≠ 0%R)
      then ((y_future - current) / current * 100)%R else 0%R in
    errors ← np_sub y_true y_fit;
    let std := if decide (length errors ≠ 0%nat) then np_std errors
               else 0%R in
    let band :=
      map (λ v, ((v - 2 * std)%R, (v + 2 * std)%R)) y_fit
      ++ [((y_future - 2 * std)%R, (y_future + 2 * std)%R)] in
    mret {| PredictResponse.model_used := model_key;
            PredictResponse.years := map Year hist ++ [year];
            PredictResponse.values := y_fit ++ [y_future];
            PredictResponse.current := current;
            PredictResponse.predicted := y_future;
            PredictResponse.change := change;
            PredictResponse.band := band;
            PredictResponse.metrics := [] |}.

(** The loop of [compare] over [model_map.items()]. *)
Fixpoint compare_loop (items : list (string * Model)) (X_hist : frame)
    (model_results : gmap string (list R)) : M (gmap string (list R)) :=
  match items with
  | [] => mret model_results
  | (name, model) :: rest =>
      model_results ←
        try_except
          (preds ← call_predict name model X_hist;
           mret (<[name := preds]> model_results))
          (λ e, mret (<[name := []]> model_results));
      compare_loop rest X_hist model_results
  end.

(** GET /compare *)
Definition compare (country : string) : M CompareResponse.t :=
  if decide (country ∉ COUNTRIES)
  then raise (HTTPException 400 ("Invalid country: " +:+ country))
  else
    let hist := history country in
    let years := map Year hist in
    let X_hist := getitem_columns hist FEATURE_COLUMNS in
    model_results ← compare_loop model_map X_hist ∅;
    mret {| CompareResponse.years := years;
            CompareResponse.lasso := default [] (model_results !! "lasso");
            CompareResponse.ridge := default [] (model_results !! "ridge");
            CompareResponse.knn := default [] (model_results !! "knn") |}.

Definition call_sklearn (r : string + R) : M R :=
  match r with
  | inr v => mret v
  | inl msg => raise (PyException "ValueError" msg)
  end.

(** The MAPE expression of [metrics]: the conditional tests
    [nonzero_mask.any()] first. *)
Definition mape_of (y_true_arr y_pred_arr : list R) : M (option R) :=
  let nonzero_mask := map (λ t, bool_decide (t ≠ 0%R)) y_true_arr in
  if np_any nonzero_mask then
    t ← np_mask y_true_arr nonzero_mask;
    p ← np_mask y_pred_arr nonzero_mask;
    d ← np_sub t p;
    t' ← np_mask y_true_arr nonzero_mask;
    q ← np_div d t';
    mret (Some (np_mean (map Rabs q) * 100)%R)
  else mret None.

(** The body of the [try] block of [metrics] for one model. *)
Definition metrics_try (name : string) (model : Model) (X_hist : frame)
    (y_true : list R) : M MetricsEntry.t :=
  y_pred ← call_predict name model X_hist;
  let y_true_arr := y_true in
  let y_pred_arr := y_pred in
  mae ← call_sklearn (mean_absolute_error y_true_arr y_pred_arr);
  mse ← call_sklearn (mean_squared_error y_true_arr y_pred_arr);
  let rmse := sqrt mse in
  r2 ← call_sklearn (r2_score y_true_arr y_pred_arr);
  mape ← mape_of y_true_arr y_pred_arr;
  mret {| MetricsEntry.MAE := Some mae;
          MetricsEntry.RMSE := Some rmse;
          MetricsEntry.R2 := Some r2;
          MetricsEntry.MAPE := mape |}.

Definition metrics_missing : MetricsEntry.t :=
  {| MetricsEntry.MAE := None; MetricsEntry.RMSE := None;
     MetricsEntry.R2 := None; MetricsEntry.MAPE := None |}.

(** The [try ... except] statement of [metrics] for one model: the
    entry stored in [results] under the model's name. *)
Definition metrics_entry (name : string) (model : Model) (X_hist : frame)
    (y_true : list R) : M MetricsEntry.t :=
  try_except (metrics_try name model X_hist y_true)
             (λ e, mret metrics_missing).

Fixpoint metrics_loop (items : list (string * Model)) (X_hist : frame)
    (y_true : list R) (results : gmap string MetricsEntry.t)
  : M (gmap string MetricsEntry.t) :=
  match items with
  | [] => mret results
  | (name, model) :: rest =>
      entry ← metrics_entry name model X_hist y_true;
      metrics_loop rest X_hist y_true (<[name := entry]> results)
  end.

(** GET /metrics *)
Definition metrics (country : string) : M (gmap string MetricsEntry.t) :=
  if decide (country ∉ COUNTRIES)
  then raise (HTTPException 400 ("Invalid country: " +:+ country))
  else
    '(hist, X_hist, y_true) ← build_features country;
    metrics_loop model_map X_hist y_true ∅.

(** GET /analysis *)
Definition country_analysis (country : string) : M AnalysisResponse.t :=
  if decide (country ∉ COUNTRIES)
  then raise (HTTPException 400 ("Invalid country: " +:+ country))
  else
    let hist := history country in
    match hist with
    | [] => raise (HTTPException 404 "No data for this country")
    | _ :: _ =>
        mret {| AnalysisResponse.years := map Year hist;
                AnalysisResponse.true_values := map Target hist |}
    end.

(** GET /countries *)
Definition countries : M (list string) := mret COUNTRIES.

(** ** Definitions used to state the properties *)

(** What [compare] keeps for one model: its predictions, or the empty
    sequence when [model.predict] raised. *)
Definition fit_or_empty (model : Model) (X : frame) : list R :=
  match run_predict model X with
  | inr ys => ys
  | inl _ => []
  end.

(** Equality of two characters, and of two strings, up to the case of
    the ASCII letters. *)
Definition eqb_nocase_ascii (a b : Ascii.ascii) : bool :=
  let x := Ascii.N_of_ascii a in
  let y := Ascii.N_of_ascii b in
  ((x =? y) || ((65 <=? x) && (x <=? 90) && (y =? x + 32))
   || ((65 <=? y) && (y <=? 90) && (x =? y + 32)))%N.

Fixpoint eqb_nocase (s1 s2 : string) : bool :=
  match s1, s2 with
  | EmptyString, EmptyString => true
  | String a s1', String b s2' => eqb_nocase_ascii a b && eqb_nocase s1' s2'
  | _, _ => false
  end.

(** A requested name matches a registry key without regard to case: an
    ASCII name when the two are equal up to the case of the letters, any
    other name when the case tables lower it to the key. *)
Definition matches_nocase (name key : string) : bool :=
  if is_ascii name then eqb_nocase name key
  else String.eqb (unicode_lower (ascii_lower name)) key.

(** The registry entry a requested name denotes, if any: the first key
    of [model_map] the name matches. *)
Definition in_registry (name : string) : option (string * Model) :=
  List.find (λ kv, matches_nocase name kv.1) model_map.

(** Selection as the specification words it: the first requested name
    that exists in the registry, else [lasso]. *)
Definition select_spec (requestedNames : list string) : string * Model :=
  default ("lasso", lasso_fixed) (head (omap in_registry requestedNames)).

(** The fields of a forecast result as the specification lists them:
    years, values, current, predicted, change and band. *)
Definition forecast_result_shape_spec : list string :=
  ["years"; "values"; "current"; "predicted"; "change"; "band"].

(** MAPE as the specification words it: the mean of
    [|(true - predicted) / true| * 100] over the points whose true value
    is not zero, and null when there is no such point. *)
Definition mape_spec (y_true y_pred : list R) : option R :=
  let pts := filter (λ tp : R * R, tp.1 ≠ 0%R) (zip y_true y_pred) in
  match pts with
  | [] => None
  | _ :: _ =>
      Some (np_mean
              (map (λ tp : R * R, (Rabs ((tp.1 - tp.2) / tp.1) * 100)%R)
                   pts))
  end.

(** The library contract assumed of a [sklearn.metrics] function: it
    returns a number on two non-empty arrays of the same length. *)
Definition sklearn_returns (f : list R → list R → string + R) : Prop :=
  ∀ y_true y_pred,
    y_true ≠ [] → length y_true = length y_pred →
    ∃ v, f y_true y_pred = inr v.

(** The contract of a model handle: one prediction per feature row. *)
Definition one_per_row (model : Model) : Prop :=
  ∀ X ys, run_predict model X = inr ys → length ys = length (rows X).

Definition never_raises (model : Model) : Prop :=
  ∀ X, ∃ ys, run_predict model X = inr ys.

(** ** The handler monad *)

Lemma bind_Return_inv {A B} (m : M A) (k : A → M B) t b :
  m ≫= k = (t, Return b) →
  ∃ t1 a t2, m = (t1, Return a) ∧ k a = (t2, Return b) ∧ t = t1 ++ t2.
Proof.
  unfold mbind, M_bind. destruct m as [t1 [a|e]]; [|discriminate].
  destruct (k a) as [t2 o] eqn:Hk. intros [= <- ->]. eauto 6.
Qed.

Lemma bind_Return {A B} (m : M A) (k : A → M B) t a :
  m = (t, Return a) → m ≫= k = (t ++ (k a).1, (k a).2).
Proof. intros ->. unfold mbind, M_bind. by destruct (k a). Qed.

Lemma try_except_Return_inv {A} (body : M A) (h : exn → M A) t a :
  (∀ e, (h e).2 ≠ Return a) →
  try_except body h = (t, Return a) → body = (t, Return a).
Proof.
  intros Hh. unfold try_except. destruct body as [t1 [a1|e]]; [done|].
  specialize (Hh e). destruct (h e) as [t2 o]. simpl in Hh.
  intros [= <- ->]. done.
Qed.

Lemma call_predict_Return_inv key model X t ys :
  call_predict key model X = (t, Return ys) →
  run_predict model X = inr ys ∧ t = [EvPredict key X].
Proof.
  unfold call_predict. intros H.
  apply bind_Return_inv in H as (t1 & [] & t2 & He & Hr & ->).
  injection He as <-. destruct (run_predict model X); [discriminate|].
  injection Hr as <- <-. done.
Qed.

Lemma call_predict_run key model X ys :
  run_predict model X = inr ys →
  call_predict key model X = ([EvPredict key X], Return ys).
Proof. intros H. unfold call_predict. by rewrite H. Qed.

Lemma np_binop_trace f a b t o : np_binop f a b = (t, o) → t = [].
Proof.
  unfold np_binop. case_decide; [by intros [= <- _]|].
  destruct a as [|? [|? ?]], b as [|? [|? ?]]; by intros [= <- _].
Qed.

(** ** What a successful run of [predict] went through *)

Lemma predict_Return_inv body tr resp :
  predict body = (tr, Return resp) →
  let c := country body in
  let hist := history c in
  let X_hist := getitem_columns hist FEATURE_COLUMNS in
  let key := (select (models body)).1 in
  let model := (select (models body)).2 in
  ∃ y_fit p y_future cur errors,
    c ∈ COUNTRIES ∧ hist ≠ [] ∧
    run_predict model X_hist = inr y_fit ∧
    run_predict model (X_pred X_hist c (year body)) = inr p ∧
    head p = Some y_future ∧
    last y_fit = Some cur ∧
    np_sub (map Target hist) y_fit = ([], Return errors) ∧
    tr = [EvBuildFeatures c; EvPredict key X_hist;
          EvPredict key (X_pred X_hist c (year body))] ∧
    resp =
      (let std := if decide (length errors ≠ 0%nat) then np_std errors
                  else 0%R in
       {| PredictResponse.model_used := key;
          PredictResponse.years := map Year hist ++ [year body];
          PredictResponse.values := y_fit ++ [y_future];
          PredictResponse.current := cur;
          PredictResponse.predicted := y_future;
          PredictResponse.change :=
            if decide (cur ≠ 0%R)
            then ((y_future - cur) / cur * 100)%R else 0%R;
          PredictResponse.band :=
            map (λ v, ((v - 2 * std)%R, (v + 2 * std)%R)) y_fit
            ++ [((y_future - 2 * std)%R, (y_future + 2 * std)%R)];
          PredictResponse.metrics := [] |}).
Proof.
  unfold predict. intros H.
  case_decide as Hc; [discriminate|].
  apply bind_Return_inv in H as (t1 & [[hist X_hist] y_true] & t2 & Hb & H & ->).
  unfold build_features in Hb.
  apply bind_Return_inv in Hb as (t0 & [] & t0' & He & Hb & ->).
  injection He as <-.
  destruct (history (country body)) as [|r0 hist0] eqn:Hh; [discriminate|].
  injection Hb as <- <- <- <-.
  destruct (select (models body)) as [key model] eqn:Hs.
  apply bind_Return_inv in H as (t3 & [yf0 yu0] & t4 & Ht & H & ->).
  apply try_except_Return_inv in Ht; [|done].
  apply bind_Return_inv in Ht as (t5 & y_fit & t6 & Hf & Ht & ->).
  apply call_predict_Return_inv in Hf as [Hf ->].
  apply bind_Return_inv in Ht as (t7 & p & t8 & Hp & Ht & ->).
  apply call_predict_Return_inv in Hp as [Hp ->].
  apply bind_Return_inv in Ht as (t9 & yf & t10 & Hy & Ht & ->).
  injection Ht as <- <- <-.
  unfold getitem_first in Hy.
  destruct (head p) as [y0|] eqn:Hhd; [|discriminate].
  injection Hy as <- <-.
  apply bind_Return_inv in H as (t11 & cur & t12 & Hl & H & ->).
  unfold getitem_last in Hl.
  destruct (last y_fit) as [l0|] eqn:Hlast; [|discriminate].
  injection Hl as <- <-.
  apply bind_Return_inv in H as (t13 & errors & t14 & He & H & ->).
  pose proof (np_binop_trace _ _ _ _ _ He) as ->.
  injection H as <- <-.
  exists y_fit, p, y0, l0, errors. simpl.
  repeat split; try done.
Qed.

(** ** The dataset index *)

Lemma elem_of_unique_from seen l x :
  x ∈ unique_from seen l ↔ x ∈ l ∧ x ∉ seen.
Proof.
  revert seen. induction l as [|y l IH]; intros seen; simpl.
  - split; [by intros ?%elem_of_nil | by intros [?%elem_of_nil _]].
  - case_decide as Hy.
    + rewrite IH, elem_of_cons. split.
      * intros [Hx Hs]. split; [by right | exact Hs].
      * intros [[->|Hx] Hs]; [done | by split].
    + rewrite !elem_of_cons, IH, elem_of_cons. split.
      * intros [->|[Hx Hs]]; [by split; [left|] |].
        split; [by right|]. intros Hin. apply Hs. by right.
      * intros [[->|Hx] Hs]; [by left|].
        destruct (decide (x = y)) as [->|Hxy]; [by left|].
        right. split; [exact Hx|]. intros [?|?]; [done|]. by apply Hs.
Qed.

Lemma elem_of_unique l x : x ∈ unique l ↔ x ∈ l.
Proof.
  unfold unique. rewrite elem_of_unique_from.
  split; [by intros [? _] | intros ?; split; [done | apply not_elem_of_nil]].
Qed.

Lemma elem_of_COUNTRIES c :
  c ∈ COUNTRIES ↔ ∃ r, r ∈ df ∧ Country r = Some c.
Proof.
  unfold COUNTRIES. rewrite merge_sort_Permutation, elem_of_unique.
  rewrite list_elem_of_omap. done.
Qed.

Lemma history_Permutation c :
  history c ≡ₚ filter (λ r, Country r = Some c) df.
Proof. apply merge_sort_Permutation. Qed.

Lemma elem_of_history c r :
  r ∈ history c ↔ r ∈ df ∧ Country r = Some c.
Proof.
  rewrite history_Permutation, list_elem_of_filter.
  split; intros [? ?]; by split.
Qed.

Lemma history_Sorted c : Sorted year_le (history c).
Proof. apply (Sorted_merge_sort _). Qed.

Lemma history_nonempty c : c ∈ COUNTRIES → history c ≠ [].
Proof.
  rewrite elem_of_COUNTRIES. intros (r & Hr & Hc) Hnil.
  assert (r ∈ history c) as Hin by (by apply elem_of_history).
  rewrite Hnil in Hin. by apply elem_of_nil in Hin.
Qed.

Lemma years_Sorted (l : list record) :
  Sorted year_le l → Sorted Z.le (map Year l).
Proof.
  induction 1 as [|r l Hs IH Hhd]; simpl; constructor; [done|].
  destruct Hhd; simpl; constructor. done.
Qed.

(** ** C1 *)

(** C1. A request to POST /predict whose country is not in [COUNTRIES]
    raises [HTTPException(400, ...)]: the answer has status 400, not 500,
    and the trace of the handler is empty, so the membership test comes
    before any feature construction and any model inference.  This holds
    whatever the three models would do. *)
Theorem predict_unknown_country body :
  country body ∉ COUNTRIES →
  result (predict body)
    = Raise (HTTPException 400 ("Invalid country: " +:+ country body))
  ∧ status_code (result (predict body)) = 400%Z
  ∧ status_code (result (predict body)) ≠ 500%Z
  ∧ trace (predict body) = [].
Proof.
  intros Hc. unfold predict. rewrite decide_True by done. by simpl.
Qed.

(** ** C9 and C8: valid countries have rows *)

(** C9. A country of [COUNTRIES] has at least one row in the table, so
    its history is not empty: GET /analysis answers it with a value (its
    404 branch is not taken) and [build_features] returns for it (its
    [ValueError] branch is not taken).  GET /analysis answers 404 for no
    country at all. *)
Theorem valid_country_has_rows c :
  c ∈ COUNTRIES →
  filter (λ r, Country r = Some c) df ≠ []
  ∧ history c ≠ []
  ∧ (∃ res, country_analysis c = ([], Return res))
  ∧ (∃ v, build_features c = ([EvBuildFeatures c], Return v))
  ∧ (∀ c', status_code (result (country_analysis c')) ≠ 404%Z).
Proof.
  intros Hc. pose proof (history_nonempty c Hc) as Hne.
  split; [|split; [done|split; [|split]]].
  - intros Hnil. apply Hne. apply Permutation_nil_r.
    rewrite <- Hnil. apply history_Permutation.
  - unfold country_analysis. rewrite decide_False by (by intros []).
    destruct (history c); [done | eauto].
  - unfold build_features. destruct (history c) eqn:Hh; [done|].
    simpl. eauto.
  - intros c'. unfold country_analysis. case_decide as Hc'; [done|].
    pose proof (history_nonempty c' Hc').
    by destruct (history c').
Qed.

(** C8. For a country of [COUNTRIES], GET /analysis returns the years of
    the country's rows of the table in non-decreasing order, and
    [true_values] lists the targets of the same rows in the same order. *)
Theorem analysis_years_sorted c :
  c ∈ COUNTRIES →
  ∃ res hist,
    country_analysis c = ([], Return res)
    ∧ hist ≡ₚ filter (λ r, Country r = Some c) df
    ∧ AnalysisResponse.years res = map Year hist
    ∧ AnalysisResponse.true_values res = map Target hist
    ∧ Sorted Z.le (AnalysisResponse.years res).
Proof.
  intros Hc. pose proof (history_nonempty c Hc) as Hne.
  pose proof (history_Sorted c) as Hs.
  pose proof (history_Permutation c) as Hp.
  unfold country_analysis. rewrite decide_False by (by intros []).
  destruct (history c) as [|r l] eqn:Hh; [done|].
  eexists _, (r :: l). split; [done|]. simpl.
  split; [done|]. split; [done|]. split; [done|].
  by apply (years_Sorted (r :: l)).
Qed.

(** ** C5: failure isolation in [compare] *)

Lemma compare_loop_run items X acc :
  compare_loop items X acc
  = (map (λ kv, EvPredict kv.1 X) items,
     Return (foldl (λ acc kv, <[kv.1 := fit_or_empty kv.2 X]> acc)
                   acc items)).
Proof.
  revert acc. induction items as [|[name model] items IH]; intros acc;
    [done|].
  simpl. unfold call_predict, fit_or_empty. simpl.
  destruct (run_predict model X) as [msg|ys]; simpl; by rewrite IH.
Qed.

(** C5. For a country of [COUNTRIES], GET /compare returns a value
    (status 200) whatever the models do.  The trace shows one prediction
    attempted per model, in registry order, on the same history features;
    each key of the answer holds that model's predictions, or the empty
    sequence if its [predict] raised, independently of the other two.  If
    all three raise, all three keys hold the empty sequence. *)
Theorem compare_never_raises c :
  c ∈ COUNTRIES →
  let X := getitem_columns (history c) FEATURE_COLUMNS in
  ∃ res,
    compare c
      = ([EvPredict "lasso" X; EvPredict "ridge" X; EvPredict "knn" X],
         Return res)
    ∧ status_code (result (compare c)) = 200%Z
    ∧ CompareResponse.years res = map Year (history c)
    ∧ CompareResponse.lasso res = fit_or_empty lasso_fixed X
    ∧ CompareResponse.ridge res = fit_or_empty ridge_fixed X
    ∧ CompareResponse.knn res = fit_or_empty knn_fixed X
    ∧ ((∀ name model, (name, model) ∈ model_map →
          ∃ msg, run_predict model X = inl msg) →
       CompareResponse.lasso res = [] ∧ CompareResponse.ridge res = []
       ∧ CompareResponse.knn res = []).
Proof.
  intros Hc X. unfold compare. rewrite decide_False by (by intros []).
  fold X. rewrite compare_loop_run. simpl.
  eexists. split; [done|]. simpl.
  split; [done|]. split; [done|].
  split; [done|]. split; [done|]. split; [done|].
  intros Hall. unfold fit_or_empty.
  destruct (Hall "lasso" lasso_fixed) as [? ->]; [by left|].
  destruct (Hall "ridge" ridge_fixed) as [? ->]; [by right; left|].
  destruct (Hall "knn" knn_fixed) as [? ->]; [by right; right; left|]. done.
Qed.

(** ** C2: model selection *)

Lemma lower_ascii_fixed_iff b :
  lower_ascii b = b ↔
  ¬ (65 ≤ Ascii.N_of_ascii b ∧ Ascii.N_of_ascii b ≤ 90)%N.
Proof.
  unfold lower_ascii.
  destruct (65 <=? Ascii.N_of_ascii b)%N eqn:H1;
    destruct (Ascii.N_of_ascii b <=? 90)%N eqn:H2; simpl;
    try apply N.leb_le in H1; try apply N.leb_le in H2;
    try apply N.leb_gt in H1; try apply N.leb_gt in H2;
    try (split; [intros _; lia | done]).
  split; [|lia]. intros Heq.
  apply (f_equal Ascii.N_of_ascii) in Heq.
  rewrite Ascii.N_ascii_embedding in Heq by lia. lia.
Qed.

Lemma eqb_nocase_ascii_lower a b :
  lower_ascii b = b →
  eqb_nocase_ascii a b = true ↔ lower_ascii a = b.
Proof.
  intros Hb%lower_ascii_fixed_iff.
  unfold eqb_nocase_ascii, lower_ascii.
  pose proof (Ascii.N_ascii_bounded a) as Ha.
  rewrite !orb_true_iff, !andb_true_iff, !N.eqb_eq, !N.leb_le.
  destruct (65 <=? Ascii.N_of_ascii a)%N eqn:H1;
    destruct (Ascii.N_of_ascii a <=? 90)%N eqn:H2; simpl;
    try apply N.leb_le in H1; try apply N.leb_le in H2;
    try apply N.leb_gt in H1; try apply N.leb_gt in H2.
  - split.
    + intros [[Heq|(_ & Heq)]|(? & Heq)]; [lia| |lia].
      rewrite <- Heq. apply Ascii.ascii_N_embedding.
    + intros <-. left; right. split; [lia|].
      rewrite Ascii.N_ascii_embedding; lia.
  - split.
    + intros [[Heq|(? & Heq)]|(? & Heq)]; [|lia|lia].
      rewrite <- (Ascii.ascii_N_embedding a), Heq.
      apply Ascii.ascii_N_embedding.
    + intros ->. by left; left.
  - split.
    + intros [[Heq|(? & Heq)]|(? & Heq)]; [|lia|lia].
      rewrite <- (Ascii.ascii_N_embedding a), Heq.
      apply Ascii.ascii_N_embedding.
    + intros ->. by left; left.
  - lia.
Qed.

Lemma eqb_nocase_lower s k :
  ascii_lower k = k → eqb_nocase s k = true ↔ ascii_lower s = k.
Proof.
  revert k. induction s as [|a s IH]; intros [|b k]; simpl; try done.
  intros [= Hb Hk].
  rewrite andb_true_iff, (eqb_nocase_ascii_lower a b Hb), (IH k Hk).
  split; [by intros [-> ->] | by intros [= -> ->]].
Qed.

Lemma lower_ascii_below_128 c :
  (Ascii.N_of_ascii (lower_ascii c) <? 128)%N
  = (Ascii.N_of_ascii c <? 128)%N.
Proof.
  unfold lower_ascii.
  destruct (65 <=? Ascii.N_of_ascii c)%N eqn:H1;
    destruct (Ascii.N_of_ascii c <=? 90)%N eqn:H2; simpl; try reflexivity.
  apply N.leb_le in H1. apply N.leb_le in H2.
  rewrite Ascii.N_ascii_embedding by lia.
  transitivity true; [|symmetry]; apply N.ltb_lt; lia.
Qed.

Lemma is_ascii_ascii_lower s : is_ascii (ascii_lower s) = is_ascii s.
Proof.
  induction s as [|c s IH]; simpl; [reflexivity|].
  by rewrite lower_ascii_below_128, IH.
Qed.

Lemma lower_of_ascii m : is_ascii m = true → lower m = ascii_lower m.
Proof. intros Hm. unfold lower. by rewrite is_ascii_ascii_lower, Hm. Qed.

Lemma lower_of_unicode m :
  is_ascii m = false → lower m = unicode_lower (ascii_lower m).
Proof. intros Hm. unfold lower. by rewrite is_ascii_ascii_lower, Hm. Qed.

Lemma matches_nocase_lower name k :
  ascii_lower k = k → matches_nocase name k = true ↔ lower name = k.
Proof.
  intros Hk. unfold matches_nocase.
  destruct (is_ascii name) eqn:Hname.
  - rewrite (lower_of_ascii name Hname). by apply eqb_nocase_lower.
  - rewrite (lower_of_unicode name Hname). apply String.eqb_eq.
Qed.

Lemma in_registry_lower name :
  in_registry name
  = (λ model, (lower name, model)) <$> dict_get model_map (lower name).
Proof.
  unfold in_registry, model_map. simpl.
  destruct (matches_nocase name "lasso") eqn:E1.
  { apply matches_nocase_lower in E1 as <-; [|done].
    by rewrite decide_True. }
  rewrite decide_False
    by (intros Heq; symmetry in Heq; apply matches_nocase_lower in Heq;
        [congruence | done]).
  destruct (matches_nocase name "ridge") eqn:E2.
  { apply matches_nocase_lower in E2 as <-; [|done].
    by rewrite decide_True. }
  rewrite decide_False
    by (intros Heq; symmetry in Heq; apply matches_nocase_lower in Heq;
        [congruence | done]).
  destruct (matches_nocase name "knn") eqn:E3.
  { apply matches_nocase_lower in E3 as <-; [|done].
    by rewrite decide_True. }
  rewrite decide_False
    by (intros Heq; symmetry in Heq; apply matches_nocase_lower in Heq;
        [congruence | done]).
  done.
Qed.

Lemma select_refines names : select names = select_spec names.
Proof.
  unfold select_spec. induction names as [|m names IH]; [done|].
  change (select (m :: names))
    with (match dict_get model_map (lower m) with
          | Some model => (lower m, model)
          | None => select names
          end).
  change (omap in_registry (m :: names))
    with (match in_registry m with
          | Some kv => kv :: omap in_registry names
          | None => omap in_registry names
          end).
  rewrite in_registry_lower.
  by destruct (dict_get model_map (lower m)) as [model|].
Qed.

Lemma omap_in_registry_None pre :
  Forall (λ x, in_registry x = None) pre → omap in_registry pre = [].
Proof.
  induction 1 as [|x pre Hx _ IH]; [done|].
  change (omap in_registry (x :: pre))
    with (match in_registry x with
          | Some kv => kv :: omap in_registry pre
          | None => omap in_registry pre
          end).
  by rewrite Hx.
Qed.

(** C2. [select] scans the requested names in order and returns the
    registry entry of the first one that matches a key of
    {lasso, ridge, knn} without regard to case; the key returned is the
    lower-cased name.  An ASCII name matches a key when the two are equal
    up to the case of the letters; a name with other characters matches
    when the case tables of the runtime lower it to the key.  If the
    list is empty or no name matches, the lasso entry is returned.
    ["RIDGE"; "lasso"] selects ridge and ["unknown"] selects lasso.  The
    entry selected is the one a successful POST /predict reports and
    runs. *)
Theorem select_first_match names :
  select names = select_spec names
  ∧ (∀ pre n post kv,
       names = pre ++ n :: post →
       Forall (λ x, in_registry x = None) pre →
       in_registry n = Some kv →
       select names = kv ∧ kv.1 = lower n
       ∧ matches_nocase n kv.1 = true
       ∧ (is_ascii n = true → eqb_nocase n kv.1 = true)
       ∧ (is_ascii n = false → unicode_lower (ascii_lower n) = kv.1)
       ∧ kv ∈ model_map)
  ∧ (Forall (λ x, in_registry x = None) names →
     select names = ("lasso", lasso_fixed))
  ∧ select ["RIDGE"; "lasso"] = ("ridge", ridge_fixed)
  ∧ select ["unknown"] = ("lasso", lasso_fixed)
  ∧ select [] = ("lasso", lasso_fixed)
  ∧ (∀ body tr resp,
       models body = names →
       predict body = (tr, Return resp) →
       PredictResponse.model_used resp = (select_spec names).1
       ∧ ∃ y_fit y_future,
           run_predict (select_spec names).2
             (getitem_columns (history (country body)) FEATURE_COLUMNS)
           = inr y_fit
           ∧ PredictResponse.values resp = y_fit ++ [y_future]).
Proof.
  split; [apply select_refines|].
  split; [|split; [|split; [done|split; [done|split; [done|]]]]].
  - intros pre n post kv -> Hpre Hn.
    rewrite select_refines. unfold select_spec.
    rewrite omap_app, (omap_in_registry_None pre Hpre).
    change (omap in_registry (n :: post))
      with (match in_registry n with
            | Some kv => kv :: omap in_registry post
            | None => omap in_registry post
            end).
    rewrite Hn. split; [done|].
    pose proof Hn as Hn'. rewrite in_registry_lower in Hn'.
    destruct (dict_get model_map (lower n)); [|done].
    injection Hn' as <-. split; [done|].
    apply find_some in Hn as [Hin Heq]. split; [done|].
    split; [|split; [|by apply list_elem_of_In]].
    + intros Hasc. unfold matches_nocase in Heq. by rewrite Hasc in Heq.
    + intros Hasc. simpl. symmetry. by apply lower_of_unicode.
  - intros Hall. rewrite select_refines. unfold select_spec.
    by rewrite (omap_in_registry_None names Hall).
  - intros body tr resp <- Hrun.
    apply predict_Return_inv in Hrun
      as (y_fit & p & y_future & cur & errors & _ & _ & Hfit & _ & _ & _
          & _ & _ & ->).
    rewrite <- select_refines. simpl. eauto.
Qed.

Lemma dict_get_elem_of {V} (d : list (string * V)) k v :
  dict_get d k = Some v → (k, v) ∈ d.
Proof.
  induction d as [|[k' v'] d IH]; simpl; [done|].
  case_decide as Hk; [intros [= ->]; subst; left | right; auto].
Qed.

Lemma select_elem_of names : select names ∈ model_map.
Proof.
  induction names as [|m names IH]; [by left|].
  change (select (m :: names))
    with (match dict_get model_map (lower m) with
          | Some model => (lower m, model)
          | None => select names
          end).
  destruct (dict_get model_map (lower m)) eqn:Hd; [|done].
  by apply dict_get_elem_of.
Qed.

(** ** C3: current value and percent change *)

(** C3. In a successful POST /predict response, [current] is the last
    element of the fit of the selected model over the history features,
    and [predicted] is the first element of what the same model returns
    for the one-row frame of the requested year; [change] is
    [(predicted - current) / current * 100] when [current] is not zero
    and is [0] when [current] is zero, whatever the prediction is. *)
Theorem predict_current_change body tr resp :
  predict body = (tr, Return resp) →
  let X_hist := getitem_columns (history (country body)) FEATURE_COLUMNS in
  ∃ y_fit p,
    run_predict (select (models body)).2 X_hist = inr y_fit
    ∧ last y_fit = Some (PredictResponse.current resp)
    ∧ run_predict (select (models body)).2
        (X_pred X_hist (country body) (year body)) = inr p
    ∧ head p = Some (PredictResponse.predicted resp)
    ∧ PredictResponse.values resp = y_fit ++ [PredictResponse.predicted resp]
    ∧ (PredictResponse.current resp ≠ 0%R →
       PredictResponse.change resp
       = ((PredictResponse.predicted resp - PredictResponse.current resp)
          / PredictResponse.current resp * 100)%R)
    ∧ (PredictResponse.current resp = 0%R →
       PredictResponse.change resp = 0%R).
Proof.
  intros Hrun X_hist. unfold X_hist.
  apply predict_Return_inv in Hrun
    as (y_fit & p & y_future & cur & errors & _ & _ & Hfit & Hp & Hhead
        & Hlast & _ & _ & ->).
  exists y_fit, p. simpl. split; [done|]. split; [done|].
  split; [done|]. split; [done|]. split; [done|].
  split; intros Hcur; [by rewrite decide_True|].
  rewrite decide_False; [done|]. intros Hnz. by apply Hnz.
Qed.

(** ** C10: fields outside the specified shape *)

(** C10. A successful POST /predict response carries a [metrics] field
    that is the empty mapping and a [model_used] field that is the key of
    the selected model, a lower-case key of the registry.  Neither name
    is among the fields the specification lists for a forecast result. *)
Theorem predict_extra_fields body tr resp :
  predict body = (tr, Return resp) →
  PredictResponse.metrics resp = []
  ∧ dict_get (PredictResponse.to_dict resp) "metrics" = Some (JObj [])
  ∧ PredictResponse.model_used resp = (select (models body)).1
  ∧ dict_get (PredictResponse.to_dict resp) "model_used"
    = Some (JStr (select (models body)).1)
  ∧ (PredictResponse.model_used resp, (select (models body)).2) ∈ model_map
  ∧ lower (PredictResponse.model_used resp) = PredictResponse.model_used resp
  ∧ ("metrics" ∉ forecast_result_shape_spec)
  ∧ ("model_used" ∉ forecast_result_shape_spec).
Proof.
  intros Hrun.
  apply predict_Return_inv in Hrun
    as (y_fit & p & y_future & cur & errors & _ & _ & _ & _ & _ & _
        & _ & _ & ->).
  simpl. split; [done|]. split; [done|]. split; [done|]. split; [done|].
  pose proof (select_elem_of (models body)) as Hin.
  destruct (select (models body)) as [key model]. simpl.
  split; [done|]. split.
  - unfold model_map in Hin.
    repeat (apply elem_of_cons in Hin as [[= -> _]|Hin]; [done|]).
    by apply elem_of_nil in Hin.
  - unfold forecast_result_shape_spec.
    split; apply not_elem_of_cons; (split; [done|]);
      repeat (apply not_elem_of_cons; split; [done|]);
      apply not_elem_of_nil.
Qed.

(** ** C4: the uncertainty band *)

Lemma map_fmap {A B} (f : A → B) (l : list A) : map f l = f <$> l.
Proof. done. Qed.

Lemma np_std_nonneg xs : (0 <= np_std xs)%R.
Proof. unfold np_std. apply sqrt_pos. Qed.

Lemma np_sub_same_length a b :
  length a = length b → np_sub a b = ([], Return (zip_with Rminus a b)).
Proof. intros Hl. unfold np_sub, np_binop. by rewrite decide_True. Qed.

(** C4. In a successful POST /predict response the band is the list of
    pairs [(v - 2 * std, v + 2 * std)], one for each element [v] of
    [values], for one non-negative number [std]; the last pair is the one
    around the prediction.  Hence every pair encloses its value.  When
    the selected model returns one prediction per feature row, the band
    has one entry per historical row plus one, and [std] is the
    population standard deviation of the residuals
    [true value - fitted value]. *)
Theorem predict_band body tr resp :
  predict body = (tr, Return resp) →
  let model := (select (models body)).2 in
  let hist := history (country body) in
  ∃ std y_fit,
    (0 <= std)%R
    ∧ run_predict model (getitem_columns hist FEATURE_COLUMNS) = inr y_fit
    ∧ PredictResponse.values resp = y_fit ++ [PredictResponse.predicted resp]
    ∧ PredictResponse.band resp
      = map (λ v, ((v - 2 * std)%R, (v + 2 * std)%R))
            (PredictResponse.values resp)
    ∧ (∀ i lo hi v,
         PredictResponse.band resp !! i = Some (lo, hi) →
         PredictResponse.values resp !! i = Some v →
         (lo <= v <= hi)%R)
    ∧ (one_per_row model →
       length (PredictResponse.band resp) = S (length hist)
       ∧ std = np_std (zip_with Rminus (map Target hist) y_fit)).
Proof.
  intros Hrun model hist.
  apply predict_Return_inv in Hrun
    as (y_fit & p & y_future & cur & errors & _ & Hne & Hfit & _ & _ & _
        & Herr & _ & ->).
  fold hist in Hne, Hfit, Herr. fold model in Hfit.
  set (std := if decide (length errors ≠ 0%nat) then np_std errors
              else 0%R).
  assert (0 <= std)%R as Hstd.
  { unfold std. case_decide; [apply np_std_nonneg | lra]. }
  exists std, y_fit. simpl.
  split; [done|]. split; [done|]. split; [done|].
  assert (map (λ v, ((v - 2 * std)%R, (v + 2 * std)%R)) y_fit
          ++ [((y_future - 2 * std)%R, (y_future + 2 * std)%R)]
          = map (λ v, ((v - 2 * std)%R, (v + 2 * std)%R))
                (y_fit ++ [y_future])) as Hband.
  { by rewrite map_app. }
  split; [done|]. split.
  - intros i lo hi v. rewrite Hband, map_fmap, list_lookup_fmap.
    intros Hb Hv. rewrite Hv in Hb. injection Hb as <- <-. lra.
  - intros Hcontract. apply Hcontract in Hfit as Hlen. simpl in Hlen.
    rewrite length_map in Hlen.
    rewrite length_app, length_map, Hlen. simpl.
    split; [lia|].
    rewrite np_sub_same_length in Herr by (by rewrite length_map).
    injection Herr as <-. unfold std.
    rewrite decide_True; [done|].
    rewrite length_zip_with, length_map, Hlen.
    destruct hist; [done | simpl; lia].
Qed.

(** ** C7: the future feature row *)

Lemma last_year_greatest c r_last :
  last (history c) = Some r_last →
  ∀ r, r ∈ history c → (Year r ≤ Year r_last)%Z.
Proof.
  intros [pre Hpre]%last_Some r Hr.
  pose proof (history_Sorted c) as Hs.
  apply (Sorted_StronglySorted _) in Hs.
  rewrite Hpre in Hs, Hr.
  apply elem_of_app in Hr as [Hr|Hr].
  - apply (StronglySorted_app_1_elem_of year_le pre [r_last] r r_last);
      [done | done | by left].
  - apply list_elem_of_singleton in Hr as ->. done.
Qed.

Lemma elem_of_FEATURE_COLUMNS_Year :
  "Year" ∈ FEATURE_COLUMNS ↔ "Year" ∈ df_columns.
Proof.
  unfold FEATURE_COLUMNS, numerical_features, X_all_columns,
    categorical_features.
  rewrite elem_of_app, !list_elem_of_filter. split.
  - intros [(_ & _ & H)|H]; [done|].
    repeat (apply elem_of_cons in H as [H|H]; [done|]).
    by apply elem_of_nil in H.
  - intros H. left. split; [|split; [done|done]].
    intros Hin. repeat (apply elem_of_cons in Hin as [Hin|Hin]; [done|]).
    by apply elem_of_nil in Hin.
Qed.

Lemma elem_of_FEATURE_COLUMNS_Country : "Country" ∈ FEATURE_COLUMNS.
Proof.
  unfold FEATURE_COLUMNS, categorical_features.
  apply elem_of_app. right. by left.
Qed.

Lemma build_features_run c :
  c ∈ COUNTRIES →
  build_features c
  = ([EvBuildFeatures c],
     Return (history c, getitem_columns (history c) FEATURE_COLUMNS,
             map Target (history c))).
Proof.
  intros Hne%history_nonempty. unfold build_features.
  by destruct (history c).
Qed.

(** The calls [predict] makes, whatever their outcome. *)
Lemma predict_trace body :
  country body ∈ COUNTRIES →
  let c := country body in
  let X_hist := getitem_columns (history c) FEATURE_COLUMNS in
  let key := (select (models body)).1 in
  let model := (select (models body)).2 in
  trace (predict body)
  = EvBuildFeatures c :: EvPredict key X_hist
    :: match run_predict model X_hist with
       | inr _ => [EvPredict key (X_pred X_hist c (year body))]
       | inl _ => []
       end.
Proof.
  intros Hc c X_hist key model. unfold predict.
  rewrite decide_False by (by intros []).
  rewrite (bind_Return _ _ _ _ (build_features_run _ Hc)).
  fold c X_hist. subst key model.
  destruct (select (models body)) as [key model].
  generalize (X_pred X_hist c (year body)). intros Xp.
  generalize (map Target (history c)). intros y_true.
  generalize (map Year (history c)). intros ys.
  clearbody X_hist. unfold call_predict, trace.
  cbn [fst snd].
  destruct (run_predict model X_hist) as [msg|y_fit]; [done|].
  destruct (run_predict model Xp) as [msg|p]; [done|].
  destruct p as [|y_future p]; [done|]. 
  unfold getitem_last. 
  destruct (np_sub y_true y_fit) as [t o] eqn:Herr.
  pose proof (np_binop_trace _ _ _ _ _ Herr) as ->.
  destruct (last y_fit) as [cur|] eqn:Hl; simpl; rewrite ?Hl; simpl;
    [|done].
  rewrite Herr. by destruct o.
Qed.

(** C7. For a request with a country of [COUNTRIES], the frame handed to
    the model for the forecast holds a single row.  That row maps [Year]
    to the requested year and [Country] to the requested country, and on
    every other column it agrees with the last row of the history
    features, which is the feature row of a record with the greatest year
    of the country.  The handler passes no other frame than this one and
    the history features to the model. *)
Theorem future_row_holds_last body :
  country body ∈ COUNTRIES →
  let c := country body in
  let X_hist := getitem_columns (history c) FEATURE_COLUMNS in
  ∃ r_last row_last row_future,
    last (history c) = Some r_last
    ∧ (∀ r, r ∈ history c → (Year r ≤ Year r_last)%Z)
    ∧ last (rows X_hist) = Some row_last
    ∧ row_last
      = filter (λ kv : string * cell, kv.1 ∈ FEATURE_COLUMNS) (cells r_last)
    ∧ rows (X_pred X_hist c (year body)) = [row_future]
    ∧ row_future !! "Year" = Some (CInt (year body))
    ∧ row_future !! "Country" = Some (CStr c)
    ∧ (∀ col, col ≠ "Year" → col ≠ "Country" →
              row_future !! col = row_last !! col)
    ∧ ("Year" ∈ df_columns →
       columns (X_pred X_hist c (year body)) = columns X_hist)
    ∧ (∀ key X, EvPredict key X ∈ trace (predict body) →
                X = X_hist ∨ X = X_pred X_hist c (year body)).
Proof.
  intros Hc c X_hist.
  pose proof (history_nonempty _ Hc) as Hne. fold c in Hne.
  apply last_is_Some in Hne as [r_last Hlast].
  set (row_last :=
         filter (λ kv : string * cell, kv.1 ∈ FEATURE_COLUMNS)
                (cells r_last)).
  assert (last (rows X_hist) = Some row_last) as Hrow.
  { unfold X_hist. simpl. by rewrite map_fmap, fmap_last, Hlast. }
  exists r_last, row_last,
    (<["Country" := CStr c]> (<["Year" := CInt (year body)]> row_last)).
  split; [done|]. split; [by apply last_year_greatest|].
  split; [done|]. split; [done|].
  split; [unfold X_pred, setitem, iloc_last; cbn [rows columns]; by rewrite Hrow|].
  split; [by rewrite lookup_insert_ne, lookup_insert_eq|].
  split; [by rewrite lookup_insert_eq|].
  split; [intros col H1 H2; by rewrite !lookup_insert_ne|].
  split.
  - intros Hy%elem_of_FEATURE_COLUMNS_Year.
    unfold X_pred, setitem, iloc_last. simpl.
    rewrite (decide_True (P := "Year" ∈ FEATURE_COLUMNS)) by done.
    by rewrite decide_True by apply elem_of_FEATURE_COLUMNS_Country.
  - intros key X. rewrite (predict_trace body Hc). fold c X_hist.
    intros [?|Hin]%elem_of_cons; [done|].
    apply elem_of_cons in Hin as [[= _ ->]|Hin]; [by left|].
    destruct (run_predict _ X_hist); [by apply elem_of_nil in Hin|].
    apply list_elem_of_singleton in Hin as [= _ ->]. by right.
Qed.

(** ** C6: MAPE over the points with a non-zero true value *)

Lemma np_sum_scale {A} (g : A → R) k (l : list A) :
  np_sum (map (λ x, (g x * k)%R) l) = (np_sum (map g l) * k)%R.
Proof.
  unfold np_sum. induction l as [|x l IH]; simpl; [lra|].
  rewrite IH. lra.
Qed.

Lemma np_mean_scale {A} (g : A → R) k (l : list A) :
  np_mean (map (λ x, (g x * k)%R) l) = (np_mean (map g l) * k)%R.
Proof.
  unfold np_mean. rewrite np_sum_scale, !length_map.
  unfold Rdiv. ring.
Qed.

Lemma zip_with_fst_snd {A B C} (f : A → B → C) (l : list (A * B)) :
  zip_with f (l.*1) (l.*2) = map (λ p, f p.1 p.2) l.
Proof. induction l as [|[a b] l IH]; [done|]. cbn. by f_equal. Qed.

(** Masking both arrays by [y_true != 0] keeps the pairs whose true
    value is not zero. *)
Lemma mask_nonzero_true y_true y_pred :
  length y_true = length y_pred →
  (filter (λ p : R * bool, p.2 = true)
     (zip y_true (map (λ t, bool_decide (t ≠ 0%R)) y_true))).*1
  = (filter (λ tp : R * R, tp.1 ≠ 0%R) (zip y_true y_pred)).*1.
Proof.
  revert y_pred. induction y_true as [|t y_true IH]; intros [|p y_pred];
    simpl; try done.
  intros [= Hl]. rewrite !filter_cons. simpl.
  destruct (decide (t ≠ 0%R)) as [Ht|Ht].
  - rewrite bool_decide_eq_true_2 by done. rewrite decide_True by done.
    simpl. f_equal. by apply IH.
  - rewrite bool_decide_eq_false_2 by done. rewrite decide_False by done.
    by apply IH.
Qed.

Lemma mask_nonzero_pred y_true y_pred :
  length y_true = length y_pred →
  (filter (λ p : R * bool, p.2 = true)
     (zip y_pred (map (λ t, bool_decide (t ≠ 0%R)) y_true))).*1
  = (filter (λ tp : R * R, tp.1 ≠ 0%R) (zip y_true y_pred)).*2.
Proof.
  revert y_pred. induction y_true as [|t y_true IH]; intros [|p y_pred];
    simpl; try done.
  intros [= Hl]. rewrite !filter_cons. simpl.
  destruct (decide (t ≠ 0%R)) as [Ht|Ht].
  - rewrite bool_decide_eq_true_2 by done. rewrite decide_True by done.
    simpl. f_equal. by apply IH.
  - rewrite bool_decide_eq_false_2 by done. rewrite decide_False by done.
    by apply IH.
Qed.

Lemma np_any_nonzero y_true y_pred :
  length y_true = length y_pred →
  np_any (map (λ t, bool_decide (t ≠ 0%R)) y_true)
  = match filter (λ tp : R * R, tp.1 ≠ 0%R) (zip y_true y_pred) with
    | [] => false
    | _ :: _ => true
    end.
Proof.
  revert y_pred. induction y_true as [|t y_true IH]; intros [|p y_pred];
    simpl; try done.
  intros [= Hl]. rewrite filter_cons. simpl.
  destruct (decide (t ≠ 0%R)) as [Ht|Ht].
  - by rewrite bool_decide_eq_true_2.
  - rewrite bool_decide_eq_false_2 by done. simpl. by apply IH.
Qed.

Lemma nonzero_points_nil y_true y_pred :
  length y_true = length y_pred →
  filter (λ tp : R * R, tp.1 ≠ 0%R) (zip y_true y_pred) = []
  ↔ Forall (λ t, t = 0%R) y_true.
Proof.
  revert y_pred. induction y_true as [|t y_true IH]; intros [|p y_pred];
    simpl; try done.
  intros [= Hl]. rewrite filter_cons, Forall_cons. simpl.
  destruct (decide (t ≠ 0%R)) as [Ht|Ht].
  - split; [done | by intros [? _]].
  - rewrite (IH y_pred Hl). apply dec_stable in Ht.
    split; [by intros ? | by intros [_ ?]].
Qed.

Lemma mret_bind {A B} (x : A) (k : A → M B) : mret x ≫= k = k x.
Proof. unfold mret, M_ret, mbind, M_bind. by destruct (k x). Qed.

Lemma np_binop_same_length f a b :
  length a = length b → np_binop f a b = mret (zip_with f a b).
Proof. intros Hl. unfold np_binop. by rewrite decide_True. Qed.

Lemma mape_chain (l : list (R * R)) :
  (d ← np_sub (l.*1) (l.*2);
   t' ← mret (l.*1);
   q ← np_div d t';
   mret (Some (np_mean (map Rabs q) * 100)%R))
  = mret (Some (np_mean
                  (map (λ tp : R * R,
                          (Rabs ((tp.1 - tp.2) / tp.1) * 100)%R) l))).
Proof.
  unfold np_sub, np_div.
  rewrite np_binop_same_length by (by rewrite !length_fmap).
  rewrite !mret_bind, zip_with_fst_snd.
  rewrite np_binop_same_length by (by rewrite length_map, length_fmap).
  rewrite mret_bind. do 2 f_equal.
  rewrite (np_mean_scale (λ tp, Rabs ((tp.1 - tp.2) / tp.1)) 100 l).
  do 2 f_equal.
  induction l as [|[a b] l IH]; [done|]. cbn. by f_equal.
Qed.

Lemma mape_of_run y_true y_pred :
  length y_true = length y_pred →
  mape_of y_true y_pred = mret (mape_spec y_true y_pred).
Proof.
  intros Hl. unfold mape_of, mape_spec.
  rewrite (np_any_nonzero y_true y_pred Hl).
  unfold np_mask. rewrite !length_map.
  rewrite (decide_True (P := length y_true = length y_true)) by done.
  rewrite (decide_True (P := length y_pred = length y_true)) by done.
  rewrite (mask_nonzero_true y_true y_pred Hl).
  rewrite (mask_nonzero_pred y_true y_pred Hl).
  destruct (filter _ (zip y_true y_pred)) as [|tp pts] eqn:Hpts; [done|].
  cbv iota beta. generalize (tp :: pts). clear. intros l.
  rewrite !mret_bind. apply mape_chain.
Qed.

Lemma metrics_entry_returns name model X y_true :
  ∃ t e, metrics_entry name model X y_true = (t, Return e).
Proof.
  unfold metrics_entry, try_except.
  destruct (metrics_try name model X y_true) as [t [e|err]]; simpl; eauto.
Qed.

Lemma metrics_entry_ok name model X y_true y_pred :
  sklearn_returns mean_absolute_error →
  sklearn_returns mean_squared_error →
  sklearn_returns r2_score →
  run_predict model X = inr y_pred →
  y_true ≠ [] → length y_true = length y_pred →
  ∃ mae rmse r2,
    metrics_entry name model X y_true
    = ([EvPredict name X],
       Return {| MetricsEntry.MAE := Some mae;
                 MetricsEntry.RMSE := Some rmse;
                 MetricsEntry.R2 := Some r2;
                 MetricsEntry.MAPE := mape_spec y_true y_pred |}).
Proof.
  intros Hmae Hmse Hr2 Hrun Hne Hl.
  destruct (Hmae y_true y_pred Hne Hl) as [mae Emae].
  destruct (Hmse y_true y_pred Hne Hl) as [mse Emse].
  destruct (Hr2 y_true y_pred Hne Hl) as [r2 Er2].
  exists mae, (sqrt mse), r2.
  unfold metrics_entry, metrics_try.
  rewrite (bind_Return _ _ _ _ (call_predict_run name model X y_pred Hrun)).
  rewrite Emae. cbn [call_sklearn]. rewrite !mret_bind.
  rewrite Emse. cbn [call_sklearn]. rewrite !mret_bind.
  rewrite Er2. cbn [call_sklearn]. rewrite !mret_bind.
  rewrite (mape_of_run y_true y_pred Hl), !mret_bind. done.
Qed.

Lemma metrics_loop_run items X y_true acc :
  ∃ t res,
    metrics_loop items X y_true acc = (t, Return res)
    ∧ (∀ n, n ∉ items.*1 → res !! n = acc !! n)
    ∧ (NoDup (items.*1) →
       ∀ name model, (name, model) ∈ items →
         ∃ t' e, metrics_entry name model X y_true = (t', Return e)
                 ∧ res !! name = Some e).
Proof.
  revert acc. induction items as [|[n0 m0] items IH]; intros acc.
  - exists [], acc. split; [done|]. split; [done|].
    intros _ name model Hin. by apply elem_of_nil in Hin.
  - destruct (metrics_entry_returns n0 m0 X y_true) as (t0 & e0 & He0).
    destruct (IH (<[n0 := e0]> acc)) as (t & res & Hrun & Hout & Hin).
    exists (t0 ++ t), res. split.
    { cbn [metrics_loop].
      rewrite (bind_Return _ _ _ _ He0). by rewrite Hrun. }
    split.
    + intros n Hn. cbn in Hn. apply not_elem_of_cons in Hn as [Hne Hn].
      rewrite (Hout n Hn). by rewrite lookup_insert_ne.
    + intros Hnd name model Hel. cbn in Hnd.
      apply NoDup_cons in Hnd as [Hn0 Hnd].
      apply elem_of_cons in Hel as [[= -> ->]|Hel].
      * exists t0, e0. split; [done|].
        rewrite (Hout n0 Hn0). by rewrite lookup_insert_eq.
      * by apply Hin.
Qed.

(** C6. Let the country be one of [COUNTRIES], and take a model of the
    registry whose prediction over the history features succeeds with one
    value per row; assume the three [sklearn.metrics] functions return on
    such arrays.  Then GET /metrics reports for that model a MAPE that is
    null exactly when every true target value of the country is zero, and
    that is otherwise the mean of [|(true - predicted) / true| * 100]
    over the points whose true value is not zero. *)
Theorem metrics_mape c name model y_pred :
  c ∈ COUNTRIES →
  (name, model) ∈ model_map →
  sklearn_returns mean_absolute_error →
  sklearn_returns mean_squared_error →
  sklearn_returns r2_score →
  run_predict model (getitem_columns (history c) FEATURE_COLUMNS)
  = inr y_pred →
  length y_pred = length (history c) →
  let y_true := map Target (history c) in
  ∃ tr results entry,
    metrics c = (tr, Return results)
    ∧ results !! name = Some entry
    ∧ (MetricsEntry.MAPE entry = None ↔ Forall (λ t, t = 0%R) y_true)
    ∧ MetricsEntry.MAPE entry = mape_spec y_true y_pred
    ∧ (¬ Forall (λ t, t = 0%R) y_true →
       MetricsEntry.MAPE entry
       = Some (np_mean
                 (map (λ tp : R * R,
                         (Rabs ((tp.1 - tp.2) / tp.1) * 100)%R)
                      (filter (λ tp : R * R, tp.1 ≠ 0%R)
                              (zip y_true y_pred))))).
Proof.
  intros Hc Hel Hmae Hmse Hr2 Hrun Hlen y_true.
  assert (length y_true = length y_pred) as Hl
    by (unfold y_true; by rewrite length_map).
  assert (y_true ≠ []) as Hne.
  { pose proof (history_nonempty c Hc) as Hh. unfold y_true.
    by destruct (history c). }
  destruct (metrics_loop_run model_map
              (getitem_columns (history c) FEATURE_COLUMNS) y_true ∅)
    as (t & res & Hloop & _ & Hin).
  destruct (Hin ltac:(by compute_done) name model Hel)
    as (t' & e & He & Hres).
  destruct (metrics_entry_ok name model _ y_true y_pred
              Hmae Hmse Hr2 Hrun Hne Hl) as (mae & rmse & r2 & Hok).
  rewrite Hok in He. injection He as <- <-.
  exists ([EvBuildFeatures c] ++ t), res. eexists.
  split.
  { unfold metrics. rewrite decide_False by (by intros []).
    rewrite (bind_Return _ _ _ _ (build_features_run c Hc)).
    fold y_true. by rewrite Hloop. }
  split; [done|]. simpl.
  pose proof (nonzero_points_nil y_true y_pred Hl) as Hnil.
  unfold mape_spec.
  destruct (filter _ (zip y_true y_pred)) as [|tp pts].
  - split; [|split; [done|]]; [split; [intros _; by apply Hnil | done]|].
    intros Hnz. destruct Hnz. by apply Hnil.
  - split; [|split; [done|done]].
    split; [done|]. intros Hall%Hnil. done.
Qed.

(** ** [predict] returns for a model that honours its contract *)

Lemma try_except_Return {A} (body : M A) (h : exn → M A) t a :
  body = (t, Return a) → try_except body h = (t, Return a).
Proof. by intros ->. Qed.

Lemma predict_returns_of_runs body y_fit y_future p :
  country body ∈ COUNTRIES →
  let c := country body in
  let X_hist := getitem_columns (history c) FEATURE_COLUMNS in
  let model := (select (models body)).2 in
  run_predict model X_hist = inr y_fit →
  run_predict model (X_pred X_hist c (year body)) = inr (y_future :: p) →
  length y_fit = length (history c) →
  ∃ tr resp, predict body = (tr, Return resp).
Proof.
  intros Hc c X_hist model Hfit Hfut Hlen.
  pose proof (history_nonempty _ Hc) as Hne. fold c in Hne.
  assert (is_Some (last y_fit)) as [cur Hcur].
  { apply last_is_Some. intros ->. by destruct (history c). }
  unfold predict. rewrite decide_False by (by intros []).
  rewrite (bind_Return _ _ _ _ (build_features_run _ Hc)).
  fold c X_hist. subst model.
  destruct (select (models body)) as [key model]. simpl in Hfit, Hfut.
  cbv zeta.
  erewrite (bind_Return (try_except _ _)); last first.
  { apply try_except_Return.
    rewrite (bind_Return _ _ _ _ (call_predict_run key model _ _ Hfit)).
    rewrite (bind_Return _ _ _ _ (call_predict_run key model _ _ Hfut)).
    reflexivity. }
  cbv beta iota.
  unfold getitem_last. rewrite Hcur, mret_bind.
  rewrite np_sub_same_length by (by rewrite length_map).
  unfold mbind, M_bind, mret, M_ret. cbn [fst snd]. eauto.
Qed.

Lemma X_pred_rows c y :
  history c ≠ [] →
  ∃ row, rows (X_pred (getitem_columns (history c) FEATURE_COLUMNS) c y)
         = [row].
Proof.
  intros [r_last Hlast]%last_is_Some.
  unfold X_pred, setitem, iloc_last, getitem_columns. cbn [rows columns].
  rewrite (map_fmap _ (history c)), fmap_last, Hlast. simpl. eauto.
Qed.

Lemma predict_returns body :
  country body ∈ COUNTRIES →
  one_per_row (select (models body)).2 →
  never_raises (select (models body)).2 →
  ∃ tr resp, predict body = (tr, Return resp).
Proof.
  intros Hc Hrow Hnr.
  pose proof (history_nonempty _ Hc) as Hne.
  destruct (Hnr (getitem_columns (history (country body)) FEATURE_COLUMNS))
    as [y_fit Hfit].
  destruct (Hnr (X_pred (getitem_columns (history (country body))
                                         FEATURE_COLUMNS)
                        (country body) (year body))) as [p Hp].
  pose proof (Hrow _ _ Hfit) as Hlen. simpl in Hlen.
  rewrite length_map in Hlen.
  pose proof (Hrow _ _ Hp) as Hlp.
  destruct (X_pred_rows (country body) (year body) Hne) as [row Hrows].
  rewrite Hrows in Hlp. destruct p as [|y_future p]; [done|].
  by eapply predict_returns_of_runs.
Qed.

(** ** Further properties: the dataset index *)

Lemma string_le_total : Total string_le.
Proof. intros a b. apply String.leb_total. Qed.

Lemma NoDup_unique_from seen l : NoDup (unique_from seen l).
Proof.
  revert seen. induction l as [|x l IH]; intros seen; simpl.
  - constructor.
  - case_decide as Hx; [apply IH|].
    constructor; [|apply IH].
    rewrite elem_of_unique_from. intros [_ Hnot]. apply Hnot. by left.
Qed.

(** X1. GET /countries returns a list without duplicates, in the order
    [sorted] gives strings, whose elements are exactly the countries that
    occur in a row of the table; a missing country cell adds nothing. *)
Theorem countries_sorted_unique :
  ∃ cs,
    countries = ([], Return cs)
    ∧ Sorted string_le cs
    ∧ NoDup cs
    ∧ (∀ c, c ∈ cs ↔ ∃ r, r ∈ df ∧ Country r = Some c).
Proof.
  exists COUNTRIES. split; [done|]. split; [|split].
  - apply (@Sorted_merge_sort _ string_le _ string_le_total).
  - unfold COUNTRIES. rewrite merge_sort_Permutation.
    apply NoDup_unique_from.
  - apply elem_of_COUNTRIES.
Qed.

(** X2. The feature columns are the non-target columns of the file that are
    not categorical, in file order, followed by [Country] and
    [Water Scarcity Level].  The target column is never a feature, and the
    list has no duplicate label when the file has none. *)
Theorem FEATURE_COLUMNS_layout :
  (∃ numeric,
     FEATURE_COLUMNS = numeric ++ ["Country"; "Water Scarcity Level"]
     ∧ numeric `sublist_of` df_columns
     ∧ ∀ c, c ∈ numeric ↔
            c ∈ df_columns ∧ c ≠ TARGET_COL
            ∧ c ≠ "Country" ∧ c ≠ "Water Scarcity Level")
  ∧ (TARGET_COL ∉ FEATURE_COLUMNS)
  ∧ (NoDup df_columns → NoDup FEATURE_COLUMNS).
Proof.
  assert (∀ c, c ∈ numerical_features ↔
               c ∈ df_columns ∧ c ≠ TARGET_COL
               ∧ c ≠ "Country" ∧ c ≠ "Water Scarcity Level") as Hnum.
  { intros c. unfold numerical_features, X_all_columns, categorical_features.
    rewrite !list_elem_of_filter, !not_elem_of_cons. split.
    - intros ((? & ? & _) & ? & ?). done.
    - intros (? & ? & ? & ?). split; [|done].
      split; [done|]. split; [done|]. apply not_elem_of_nil. }
  split; [|split].
  - exists numerical_features. split; [done|]. split; [|exact Hnum].
    unfold numerical_features, X_all_columns.
    etrans; apply sublist_filter.
  - unfold FEATURE_COLUMNS. rewrite elem_of_app, Hnum.
    intros [(_ & Hne & _)|Hcat]; [done|].
    unfold categorical_features in Hcat.
    repeat (apply elem_of_cons in Hcat as [Hcat|Hcat]; [done|]).
    by apply elem_of_nil in Hcat.
  - intros Hnd. unfold FEATURE_COLUMNS. apply NoDup_app.
    split; [|split].
    + unfold numerical_features, X_all_columns.
      by do 2 apply NoDup_filter.
    + intros c (_ & _ & H1 & H2)%Hnum Hcat.
      unfold categorical_features in Hcat.
      repeat (apply elem_of_cons in Hcat as [Hcat|Hcat]; [done|]).
      by apply elem_of_nil in Hcat.
    + unfold categorical_features. apply NoDup_cons.
      split; [|apply NoDup_singleton].
      intros Hin. apply list_elem_of_singleton in Hin. done.
Qed.

(** X3. [build_features] raises [ValueError] exactly when the table has no
    row for the country.  Otherwise it returns the country's rows in
    non-decreasing year together with a feature frame and a target list
    aligned with them: one feature row and one target per row, in the same
    order, under the feature columns. *)
Theorem build_features_cases c :
  ((¬ ∃ r, r ∈ df ∧ Country r = Some c)
   ∧ result (build_features c)
     = Raise (PyException "ValueError" ("No data for country " +:+ c)))
  ∨ ((∃ r, r ∈ df ∧ Country r = Some c)
     ∧ ∃ hist X_hist y_true,
         result (build_features c) = Return (hist, X_hist, y_true)
         ∧ hist ≡ₚ filter (λ r, Country r = Some c) df
         ∧ Sorted year_le hist
         ∧ columns X_hist = FEATURE_COLUMNS
         ∧ length (rows X_hist) = length hist
         ∧ y_true = map Target hist
         ∧ (∀ i r, hist !! i = Some r →
              rows X_hist !! i
              = Some (filter (λ kv : string * cell, kv.1 ∈ FEATURE_COLUMNS)
                             (cells r)))).
Proof.
  pose proof (history_Permutation c) as Hp.
  pose proof (history_Sorted c) as Hs.
  unfold build_features.
  destruct (history c) as [|r0 h] eqn:Hh.
  - left. split; [|done]. intros (r & Hr & Hc).
    assert (r ∈ history c) as Hin by (by apply elem_of_history).
    rewrite Hh in Hin. by apply elem_of_nil in Hin.
  - right. split.
    { exists r0. apply elem_of_history. rewrite Hh. by left. }
    eexists _, _, _. split; [done|]. split; [done|]. split; [done|].
    split; [done|]. split; [cbn [rows getitem_columns]; by rewrite length_map|].
    split; [done|].
    intros i r Hi. cbn [rows getitem_columns].
    by rewrite map_fmap, list_lookup_fmap, Hi.
Qed.

(** ** Further properties: outcomes of [predict] *)

Lemma np_binop_cases f a b :
  (broadcastable (length a) (length b)
   ∧ ∃ errors, np_binop f a b = ([], Return errors))
  ∨ (¬ broadcastable (length a) (length b)
     ∧ np_binop f a b
       = ([], Raise (PyException "ValueError"
                       "operands could not be broadcast together"))).
Proof.
  unfold np_binop, broadcastable. case_decide as Hl.
  { left. split; [by left | by eexists]. }
  destruct a as [|x [|x' a]], b as [|y [|y' b]]; simpl in *;
    try (exfalso; lia);
    try (left; split; [lia | by eexists]);
    right; (split; [lia | done]).
Qed.

(** The run of [predict] for a country of [COUNTRIES], branch by branch. *)
Lemma predict_valid_run body :
  country body ∈ COUNTRIES →
  let c := country body in
  let hist := history c in
  let X_hist := getitem_columns hist FEATURE_COLUMNS in
  let Xp := X_pred X_hist c (year body) in
  let key := (select (models body)).1 in
  let model := (select (models body)).2 in
  predict body
  = match run_predict model X_hist with
    | inl msg =>
        ([EvBuildFeatures c; EvPredict key X_hist],
         Raise (HTTPException 500 ("Prediction failed: " +:+ msg)))
    | inr y_fit =>
        match run_predict model Xp with
        | inl msg =>
            ([EvBuildFeatures c; EvPredict key X_hist; EvPredict key Xp],
             Raise (HTTPException 500 ("Prediction failed: " +:+ msg)))
        | inr [] =>
            ([EvBuildFeatures c; EvPredict key X_hist; EvPredict key Xp],
             Raise (HTTPException 500
                      ("Prediction failed: " +:+ "index 0 is out of bounds")))
        | inr (y_future :: _) =>
            match last y_fit with
            | None =>
                ([EvBuildFeatures c; EvPredict key X_hist; EvPredict key Xp],
                 Raise (PyException "IndexError" "index -1 is out of bounds"))
            | Some cur =>
                match (np_sub (map Target hist) y_fit).2 with
                | Raise e =>
                    ([EvBuildFeatures c; EvPredict key X_hist;
                      EvPredict key Xp], Raise e)
                | Return errors =>
                    let std := if decide (length errors ≠ 0%nat)
                               then np_std errors else 0%R in
                    ([EvBuildFeatures c; EvPredict key X_hist;
                      EvPredict key Xp],
                     Return
                       {| PredictResponse.model_used := key;
                          PredictResponse.years := map Year hist ++ [year body];
                          PredictResponse.values := y_fit ++ [y_future];
                          PredictResponse.current := cur;
                          PredictResponse.predicted := y_future;
                          PredictResponse.change :=
                            if decide (cur ≠ 0%R)
                            then ((y_future - cur) / cur * 100)%R else 0%R;
                          PredictResponse.band :=
                            map (λ v, ((v - 2 * std)%R, (v + 2 * std)%R))
                                y_fit
                            ++ [((y_future - 2 * std)%R,
                                 (y_future + 2 * std)%R)];
                          PredictResponse.metrics := [] |})
                end
            end
        end
    end.
Proof.
  intros Hc c hist X_hist Xp key model. unfold predict.
  rewrite decide_False by (by intros []).
  rewrite (bind_Return _ _ _ _ (build_features_run _ Hc)).
  fold c hist X_hist Xp. subst key model.
  destruct (select (models body)) as [key model]. cbn [fst snd].
  generalize (map Target hist). intros y_true.
  generalize (map Year hist). intros ys.
  clearbody Xp X_hist. unfold call_predict.
  destruct (run_predict model X_hist) as [msg|y_fit]; [done|].
  destruct (run_predict model Xp) as [msg|p]; [done|].
  destruct p as [|y_future p]; [done|].
  unfold getitem_last.
  destruct (np_sub y_true y_fit) as [t o] eqn:Herr.
  pose proof (np_binop_trace _ _ _ _ _ Herr) as ->.
  destruct (last y_fit) as [cur|] eqn:Hl; simpl; rewrite ?Hl; simpl;
    [|done].
  rewrite Herr. by destruct o.
Qed.

(** X4. For a country of [COUNTRIES], a failure of the selected model is
    answered with [HTTPException(500, "Prediction failed: ...")] carrying
    the model's message: after one call if the fit over the history raises,
    after two if the forecast call raises.  A forecast call that returns an
    empty array is answered with a 500 of the same kind. *)
Theorem predict_model_failure body :
  country body ∈ COUNTRIES →
  let c := country body in
  let X_hist := getitem_columns (history c) FEATURE_COLUMNS in
  let Xp := X_pred X_hist c (year body) in
  let key := (select (models body)).1 in
  let model := (select (models body)).2 in
  (∀ msg, run_predict model X_hist = inl msg →
     predict body
     = ([EvBuildFeatures c; EvPredict key X_hist],
        Raise (HTTPException 500 ("Prediction failed: " +:+ msg))))
  ∧ (∀ y_fit msg,
       run_predict model X_hist = inr y_fit →
       run_predict model Xp = inl msg →
       predict body
       = ([EvBuildFeatures c; EvPredict key X_hist; EvPredict key Xp],
          Raise (HTTPException 500 ("Prediction failed: " +:+ msg))))
  ∧ (∀ y_fit,
       run_predict model X_hist = inr y_fit →
       run_predict model Xp = inr [] →
       ∃ detail,
         result (predict body) = Raise (HTTPException 500 detail)).
Proof.
  intros Hc c X_hist Xp key model.
  pose proof (predict_valid_run body Hc) as Hrun.
  cbv zeta in Hrun. fold c X_hist Xp key model in Hrun.
  split; [|split].
  - intros msg Hfit. by rewrite Hrun, Hfit.
  - intros y_fit msg Hfit Hfut. by rewrite Hrun, Hfit, Hfut.
  - intros y_fit Hfit Hfut. rewrite Hrun, Hfit, Hfut. by eexists.
Qed.

(** X5. POST /predict returns a value exactly when the country is in
    [COUNTRIES], both calls of the selected model return, the fit is not
    empty, the forecast array is not empty, and the fit can be broadcast
    against the targets (same length, or one of the two of length one). *)
Theorem predict_returns_iff body :
  let c := country body in
  let X_hist := getitem_columns (history c) FEATURE_COLUMNS in
  let model := (select (models body)).2 in
  (∃ tr resp, predict body = (tr, Return resp))
  ↔ c ∈ COUNTRIES
    ∧ ∃ y_fit y_future p,
        run_predict model X_hist = inr y_fit
        ∧ run_predict model (X_pred X_hist c (year body))
          = inr (y_future :: p)
        ∧ y_fit ≠ []
        ∧ broadcastable (length (history c)) (length y_fit).
Proof.
  intros c X_hist model. split.
  - intros (tr & resp & Hrun).
    apply predict_Return_inv in Hrun
      as (y_fit & p & y_future & cur & errors & Hc & _ & Hfit & Hp & Hhd
          & Hlast & Herr & _ & _).
    split; [done|]. destruct p as [|y0 p]; [done|].
    exists y_fit, y0, p. split; [done|]. split; [done|]. split.
    + intros ->. done.
    + destruct (np_binop_cases Rminus (map Target (history (country body)))
                  y_fit) as [[Hb _]|[_ Hraise]].
      * by rewrite length_map in Hb.
      * unfold np_sub in Herr. by rewrite Hraise in Herr.
  - intros (Hc & y_fit & y_future & p & Hfit & Hp & Hne & Hb).
    pose proof (predict_valid_run body Hc) as Hrun. cbv zeta in Hrun.
    fold c X_hist model in Hrun. rewrite Hrun, Hfit, Hp.
    apply last_is_Some in Hne as [cur ->].
    destruct (np_binop_cases Rminus (map Target (history c)) y_fit)
      as [[_ [errors Herr]]|[Hnb _]].
    + unfold np_sub. rewrite Herr. simpl. eauto.
    + destruct Hnb. by rewrite length_map.
Qed.

(** ** Further properties: [metrics] *)

Lemma bind_trace_nil {A B} (m : M A) (k : A → M B) :
  m.1 = [] → (∀ a, (k a).1 = []) → (m ≫= k).1 = [].
Proof.
  intros Hm Hk. unfold mbind, M_bind. destruct m as [t [a|e]]; simpl in *.
  - specialize (Hk a). destruct (k a) as [t' o]. simpl in *. by subst.
  - done.
Qed.

Lemma np_mask_trace arr mask : (np_mask arr mask).1 = [].
Proof. unfold np_mask. by case_decide. Qed.

Lemma np_binop_trace_nil f a b : (np_binop f a b).1 = [].
Proof.
  destruct (np_binop f a b) as [t o] eqn:E.
  by apply np_binop_trace in E.
Qed.

Lemma mape_of_trace y_true y_pred : (mape_of y_true y_pred).1 = [].
Proof.
  unfold mape_of. destruct (np_any _); [|done].
  apply bind_trace_nil; [apply np_mask_trace|]. intros t.
  apply bind_trace_nil; [apply np_mask_trace|]. intros p.
  apply bind_trace_nil; [apply np_binop_trace_nil|]. intros d.
  apply bind_trace_nil; [apply np_mask_trace|]. intros t'.
  apply bind_trace_nil; [apply np_binop_trace_nil|]. by intros q.
Qed.

Lemma np_sum_nonneg l : Forall (λ x, (0 <= x)%R) l → (0 <= np_sum l)%R.
Proof.
  unfold np_sum. induction 1 as [|x l Hx _ IH]; simpl; [lra|].
  lra.
Qed.

Lemma np_mean_nonneg l : Forall (λ x, (0 <= x)%R) l → (0 <= np_mean l)%R.
Proof.
  intros Hl. unfold np_mean, Rdiv. destruct l as [|x l].
  - unfold np_sum. simpl. lra.
  - apply Rmult_le_pos; [by apply np_sum_nonneg|].
    left. apply Rinv_0_lt_compat. apply lt_0_INR. simpl. lia.
Qed.

Lemma mape_of_nonneg y_true y_pred t x :
  mape_of y_true y_pred = (t, Return (Some x)) → (0 <= x)%R.
Proof.
  unfold mape_of. destruct (np_any _); [|done]. intros H.
  apply bind_Return_inv in H as (? & a & ? & _ & H & _).
  apply bind_Return_inv in H as (? & b & ? & _ & H & _).
  apply bind_Return_inv in H as (? & d & ? & _ & H & _).
  apply bind_Return_inv in H as (? & a' & ? & _ & H & _).
  apply bind_Return_inv in H as (? & q & ? & _ & H & _).
  injection H as _ <-.
  apply Rmult_le_pos; [|lra]. apply np_mean_nonneg.
  apply Forall_forall. intros y Hy. apply list_elem_of_In in Hy.
  apply in_map_iff in Hy as (z & <- & _). apply Rabs_pos.
Qed.

(** What the [try ... except] of [metrics] stores for one model: the
    all-null entry, or the three metrics of [sklearn] with the MAPE. *)
Lemma metrics_entry_cases name model X y_true :
  metrics_entry name model X y_true
  = ([EvPredict name X], Return metrics_missing)
  ∨ ∃ y_pred mae mse r2 mape,
      run_predict model X = inr y_pred
      ∧ mean_absolute_error y_true y_pred = inr mae
      ∧ mean_squared_error y_true y_pred = inr mse
      ∧ r2_score y_true y_pred = inr r2
      ∧ mape_of y_true y_pred = ([], Return mape)
      ∧ metrics_entry name model X y_true
        = ([EvPredict name X],
           Return {| MetricsEntry.MAE := Some mae;
                     MetricsEntry.RMSE := Some (sqrt mse);
                     MetricsEntry.R2 := Some r2;
                     MetricsEntry.MAPE := mape |}).
Proof.
  unfold metrics_entry, metrics_try, call_predict.
  destruct (run_predict model X) as [msg|y_pred] eqn:Hrun; [by left|].
  cbn [emit mbind M_bind mret M_ret app].
  destruct (mean_absolute_error y_true y_pred) as [?|mae] eqn:Hmae;
    [by left|].
  cbn [call_sklearn emit mbind M_bind mret M_ret app].
  destruct (mean_squared_error y_true y_pred) as [?|mse] eqn:Hmse;
    [by left|].
  cbn [call_sklearn emit mbind M_bind mret M_ret app].
  destruct (r2_score y_true y_pred) as [?|r2] eqn:Hr2; [by left|].
  cbn [call_sklearn emit mbind M_bind mret M_ret app].
  pose proof (mape_of_trace y_true y_pred) as Ht.
  destruct (mape_of y_true y_pred) as [t [mape|e]] eqn:Hmape;
    simpl in Ht; subst t; [|by left].
  right. by exists y_pred, mae, mse, r2, mape.
Qed.

Lemma metrics_valid_run c :
  c ∈ COUNTRIES →
  let X := getitem_columns (history c) FEATURE_COLUMNS in
  let y := map Target (history c) in
  ∃ e1 e2 e3,
    metrics_entry "lasso" lasso_fixed X y = ([EvPredict "lasso" X], Return e1)
    ∧ metrics_entry "ridge" ridge_fixed X y
      = ([EvPredict "ridge" X], Return e2)
    ∧ metrics_entry "knn" knn_fixed X y = ([EvPredict "knn" X], Return e3)
    ∧ metrics c
      = ([EvBuildFeatures c; EvPredict "lasso" X; EvPredict "ridge" X;
          EvPredict "knn" X],
         Return (<["knn" := e3]> (<["ridge" := e2]> (<["lasso" := e1]> ∅)))).
Proof.
  intros Hc X y.
  assert (∀ name model, ∃ e, metrics_entry name model X y
                             = ([EvPredict name X], Return e)) as Hent.
  { intros name model.
    destruct (metrics_entry_cases name model X y)
      as [H|(?&?&?&?&?&_&_&_&_&_&H)]; eauto. }
  destruct (Hent "lasso" lasso_fixed) as [e1 H1].
  destruct (Hent "ridge" ridge_fixed) as [e2 H2].
  destruct (Hent "knn" knn_fixed) as [e3 H3].
  exists e1, e2, e3. split; [done|]. split; [done|]. split; [done|].
  unfold metrics. rewrite decide_False by (by intros []).
  rewrite (bind_Return _ _ _ _ (build_features_run c Hc)).
  fold X y. cbn [metrics_loop model_map].
  rewrite (bind_Return _ _ _ _ H1). cbv beta.
  rewrite (bind_Return _ _ _ _ H2). cbv beta.
  rewrite (bind_Return _ _ _ _ H3). done.
Qed.

Lemma metrics_results_lookup (e1 e2 e3 : MetricsEntry.t) name e :
  (<["knn" := e3]> (<["ridge" := e2]> (<["lasso" := e1]> ∅)) : gmap _ _)
    !! name = Some e →
  (name = "lasso" ∧ e = e1) ∨ (name = "ridge" ∧ e = e2)
  ∨ (name = "knn" ∧ e = e3).
Proof.
  intros H.
  apply lookup_insert_Some in H as [[<- <-]|[_ H]]; [by right; right|].
  apply lookup_insert_Some in H as [[<- <-]|[_ H]]; [by right; left|].
  apply lookup_insert_Some in H as [[<- <-]|[_ H]]; [by left|].
  by rewrite lookup_empty in H.
Qed.

Lemma model_map_cases name model :
  (name, model) ∈ model_map →
  (name = "lasso" ∧ model = lasso_fixed)
  ∨ (name = "ridge" ∧ model = ridge_fixed)
  ∨ (name = "knn" ∧ model = knn_fixed).
Proof.
  unfold model_map. intros H.
  apply elem_of_cons in H as [[= -> ->]|H]; [by left|].
  apply elem_of_cons in H as [[= -> ->]|H]; [by right; left|].
  apply elem_of_cons in H as [[= -> ->]|H]; [by right; right|].
  by apply elem_of_nil in H.
Qed.

(** X6. For a country of [COUNTRIES], the handler of GET /metrics returns
    a value, and raises nothing, whatever the models and the metric
    functions do.  It builds the features once and calls each model once,
    in registry order, on the same history features.  The value returned
    has exactly the keys lasso, ridge and knn; a model whose [predict]
    raises, or for which a metric function raises, gets the entry with
    all four metrics null. *)
Theorem metrics_never_raises c :
  c ∈ COUNTRIES →
  let X := getitem_columns (history c) FEATURE_COLUMNS in
  let y := map Target (history c) in
  ∃ results,
    metrics c
    = ([EvBuildFeatures c; EvPredict "lasso" X; EvPredict "ridge" X;
        EvPredict "knn" X], Return results)
    ∧ (∀ n, is_Some (results !! n) ↔ n ∈ ["lasso"; "ridge"; "knn"])
    ∧ (∀ name model,
         (name, model) ∈ model_map →
         (∃ msg, run_predict model X = inl msg)
         ∨ (∃ y_pred msg,
              run_predict model X = inr y_pred
              ∧ (mean_absolute_error y y_pred = inl msg
                 ∨ mean_squared_error y y_pred = inl msg
                 ∨ r2_score y y_pred = inl msg)) →
         results !! name = Some metrics_missing).
Proof.
  intros Hc X y.
  destruct (metrics_valid_run c Hc) as (e1 & e2 & e3 & H1 & H2 & H3 & Hrun).
  fold X y in H1, H2, H3, Hrun.
  eexists. split; [exact Hrun|]. split.
  - intros n. rewrite !elem_of_cons, elem_of_nil. split.
    + intros [e He].
      apply metrics_results_lookup in He as [[-> _]|[[-> _]|[-> _]]];
        [by left | by right; left | by right; right; left].
    + intros [->|[->|[->|[]]]]; by eexists.
  - assert (∀ name model e,
              metrics_entry name model X y = ([EvPredict name X], Return e) →
              (∃ msg, run_predict model X = inl msg)
              ∨ (∃ y_pred msg,
                   run_predict model X = inr y_pred
                   ∧ (mean_absolute_error y y_pred = inl msg
                      ∨ mean_squared_error y y_pred = inl msg
                      ∨ r2_score y y_pred = inl msg)) →
              e = metrics_missing) as Hmiss.
    { intros name model e He Hfail.
      destruct (metrics_entry_cases name model X y)
        as [H|(yp & mae & mse & r2 & mape & Hp & Hmae & Hmse & Hr2 & _ & H)].
      - rewrite H in He. by injection He.
      - destruct Hfail as [[msg Hm]|(yp' & msg & Hp' & Hm)]; [congruence|].
        rewrite Hp in Hp'. injection Hp' as <-.
        destruct Hm as [Hm|[Hm|Hm]]; congruence. }
    intros name model Hin Hfail.
    apply model_map_cases in Hin as [[-> ->]|[[-> ->]|[-> ->]]].
    + by rewrite (Hmiss _ _ _ H1 Hfail).
    + by rewrite (Hmiss _ _ _ H2 Hfail).
    + by rewrite (Hmiss _ _ _ H3 Hfail).
Qed.

Lemma metrics_entry_shape name model X y t e :
  metrics_entry name model X y = (t, Return e) →
  (MetricsEntry.MAE e = None ↔ MetricsEntry.RMSE e = None)
  ∧ (MetricsEntry.MAE e = None ↔ MetricsEntry.R2 e = None)
  ∧ (MetricsEntry.MAE e = None → MetricsEntry.MAPE e = None)
  ∧ (∀ x, MetricsEntry.MAPE e = Some x → (0 <= x)%R).
Proof.
  intros He.
  destruct (metrics_entry_cases name model X y)
    as [H|(yp & mae & mse & r2 & mape & _ & _ & _ & _ & Hmape & H)];
    rewrite H in He; injection He as _ <-; simpl.
  - done.
  - split; [done|]. split; [done|]. split; [done|].
    intros x ->. by eapply mape_of_nonneg.
Qed.

(** X7. In every entry GET /metrics returns, MAE, RMSE and R2 are null
    together, and MAPE is null whenever they are; a MAPE that is present is
    not negative. *)
Theorem metrics_entry_invariant c tr results name e :
  metrics c = (tr, Return results) →
  results !! name = Some e →
  (MetricsEntry.MAE e = None ↔ MetricsEntry.RMSE e = None)
  ∧ (MetricsEntry.MAE e = None ↔ MetricsEntry.R2 e = None)
  ∧ (MetricsEntry.MAE e = None → MetricsEntry.MAPE e = None)
  ∧ (∀ x, MetricsEntry.MAPE e = Some x → (0 <= x)%R).
Proof.
  intros Hrun Hlook.
  destruct (decide (c ∈ COUNTRIES)) as [Hc|Hc].
  - destruct (metrics_valid_run c Hc)
      as (e1 & e2 & e3 & H1 & H2 & H3 & Hrun').
    rewrite Hrun' in Hrun. injection Hrun as _ <-.
    apply metrics_results_lookup in Hlook
      as [[_ ->]|[[_ ->]|[_ ->]]]; by eapply metrics_entry_shape.
  - unfold metrics in Hrun. by rewrite decide_True in Hrun.
Qed.

(** ** Further properties: the handlers together *)

Lemma compare_valid_run c :
  c ∈ COUNTRIES →
  let X := getitem_columns (history c) FEATURE_COLUMNS in
  compare c
  = ([EvPredict "lasso" X; EvPredict "ridge" X; EvPredict "knn" X],
     Return {| CompareResponse.years := map Year (history c);
               CompareResponse.lasso := fit_or_empty lasso_fixed X;
               CompareResponse.ridge := fit_or_empty ridge_fixed X;
               CompareResponse.knn := fit_or_empty knn_fixed X |}).
Proof.
  intros Hc X. unfold compare. rewrite decide_False by (by intros []).
  fold X. by rewrite compare_loop_run.
Qed.

Lemma country_analysis_valid_run c :
  c ∈ COUNTRIES →
  country_analysis c
  = ([], Return {| AnalysisResponse.years := map Year (history c);
                   AnalysisResponse.true_values := map Target (history c) |}).
Proof.
  intros Hc. pose proof (history_nonempty c Hc) as Hne.
  unfold country_analysis. rewrite decide_False by (by intros []).
  by destruct (history c).
Qed.

(** X8. The handlers that take a country agree on which countries they
    accept.  For a country outside [COUNTRIES], /compare, /metrics and
    /analysis raise [HTTPException(400, "Invalid country: ...")] without
    any model call.  For a country of [COUNTRIES] the handlers of these
    three return a value, and the only [HTTPException] that can leave
    /predict has status 500, never 400 or 404. *)
Theorem country_validation_uniform c :
  (c ∉ COUNTRIES →
   compare c = ([], Raise (HTTPException 400 ("Invalid country: " +:+ c)))
   ∧ metrics c = ([], Raise (HTTPException 400 ("Invalid country: " +:+ c)))
   ∧ country_analysis c
     = ([], Raise (HTTPException 400 ("Invalid country: " +:+ c))))
  ∧ (c ∈ COUNTRIES →
     (∃ v, result (compare c) = Return v)
     ∧ (∃ v, result (metrics c) = Return v)
     ∧ (∃ v, result (country_analysis c) = Return v)
     ∧ ∀ body status detail,
         country body = c →
         result (predict body) = Raise (HTTPException status detail) →
         status = 500%Z).
Proof.
  split.
  - intros Hc. unfold compare, metrics, country_analysis.
    by rewrite !decide_True.
  - intros Hc. split; [rewrite (compare_valid_run c Hc); by eexists|].
    split.
    { destruct (metrics_valid_run c Hc) as (?&?&?&_&_&_&->). by eexists. }
    split; [rewrite (country_analysis_valid_run c Hc); by eexists|].
    intros body status detail <-. rewrite (predict_valid_run body Hc).
    destruct (run_predict _ _) as [msg|y_fit]; [by intros [= <- _]|].
    destruct (run_predict _ _) as [msg|[|y_future p]];
      [by intros [= <- _]..|].
    destruct (last y_fit); [|done].
    destruct (np_binop_cases Rminus (map Target (history (country body)))
                y_fit) as [[_ [errors Herr]]|[_ Herr]];
      unfold np_sub; rewrite Herr; done.
Qed.

Lemma TARGET_not_feature : TARGET_COL ∉ FEATURE_COLUMNS.
Proof.
  unfold FEATURE_COLUMNS, numerical_features, X_all_columns,
    categorical_features.
  rewrite elem_of_app, !list_elem_of_filter.
  intros [(_ & Hne & _)|Hcat]; [done|].
  repeat (apply elem_of_cons in Hcat as [Hcat|Hcat]; [done|]).
  by apply elem_of_nil in Hcat.
Qed.

Lemma X_hist_row_keys hist row k :
  row ∈ rows (getitem_columns hist FEATURE_COLUMNS) →
  is_Some (row !! k) → k ∈ FEATURE_COLUMNS.
Proof.
  cbn [rows getitem_columns]. rewrite map_fmap.
  intros (r & -> & _)%list_elem_of_fmap [v Hv].
  by apply map_lookup_filter_Some in Hv as [_ Hk].
Qed.

Lemma X_pred_row_inv X c y row :
  row ∈ rows (X_pred X c y) →
  ∃ r0, r0 ∈ rows X
        ∧ row = <["Country" := CStr c]> (<["Year" := CInt y]> r0).
Proof.
  unfold X_pred, setitem, iloc_last. cbn [rows columns].
  destruct (last (rows X)) as [r0|] eqn:Hl; simpl.
  - intros ->%list_elem_of_singleton. exists r0. split; [|done].
    by apply last_Some_elem_of.
  - by intros ?%elem_of_nil.
Qed.

(** The frames a handler passes to a model. *)
Lemma model_input_frames key X :
  (∃ body, EvPredict key X ∈ trace (predict body))
  ∨ (∃ c, EvPredict key X ∈ trace (compare c))
  ∨ (∃ c, EvPredict key X ∈ trace (metrics c)) →
  ∃ c, X = getitem_columns (history c) FEATURE_COLUMNS
       ∨ ∃ y, X = X_pred (getitem_columns (history c) FEATURE_COLUMNS) c y.
Proof.
  intros [[body Hin]|[[c Hin]|[c Hin]]].
  - destruct (decide (country body ∈ COUNTRIES)) as [Hc|Hc].
    + rewrite (predict_trace body Hc) in Hin.
      exists (country body).
      apply elem_of_cons in Hin as [?|Hin]; [done|].
      apply elem_of_cons in Hin as [[= _ ->]|Hin]; [by left|].
      destruct (run_predict _ _); [by apply elem_of_nil in Hin|].
      apply list_elem_of_singleton in Hin as [= _ ->]. right. by eexists.
    + unfold predict in Hin. rewrite decide_True in Hin by done.
      by apply elem_of_nil in Hin.
  - exists c. left. destruct (decide (c ∈ COUNTRIES)) as [Hc|Hc].
    + rewrite (compare_valid_run c Hc) in Hin.
      repeat (apply elem_of_cons in Hin as [[= _ ->]|Hin]; [done|]).
      by apply elem_of_nil in Hin.
    + unfold compare in Hin. rewrite decide_True in Hin by done.
      by apply elem_of_nil in Hin.
  - exists c. left. destruct (decide (c ∈ COUNTRIES)) as [Hc|Hc].
    + destruct (metrics_valid_run c Hc) as (?&?&?&_&_&_&Hrun).
      rewrite Hrun in Hin.
      apply elem_of_cons in Hin as [?|Hin]; [done|].
      repeat (apply elem_of_cons in Hin as [[= _ ->]|Hin]; [done|]).
      by apply elem_of_nil in Hin.
    + unfold metrics in Hin. rewrite decide_True in Hin by done.
      by apply elem_of_nil in Hin.
Qed.

(** X9. No handler shows the target to a model: in every frame passed to
    [model.predict] by /predict, /compare or /metrics, no row has a value
    under the target column, and every label that has one is a feature
    column or [Year]. *)
Theorem model_inputs_exclude_target key X row :
  (∃ body, EvPredict key X ∈ trace (predict body))
  ∨ (∃ c, EvPredict key X ∈ trace (compare c))
  ∨ (∃ c, EvPredict key X ∈ trace (metrics c)) →
  row ∈ rows X →
  row !! TARGET_COL = None
  ∧ ∀ k, is_Some (row !! k) → k ∈ FEATURE_COLUMNS ∨ k = "Year".
Proof.
  intros Hin Hrow.
  assert (∀ k, is_Some (row !! k) → k ∈ FEATURE_COLUMNS ∨ k = "Year")
    as Hkeys.
  { apply model_input_frames in Hin as [c [->|[y ->]]].
    - intros k Hk. left. by eapply X_hist_row_keys.
    - apply X_pred_row_inv in Hrow as (r0 & Hr0 & ->). intros k Hk.
      destruct (decide (k = "Country")) as [->|Hk1];
        [left; apply elem_of_FEATURE_COLUMNS_Country|].
      destruct (decide (k = "Year")) as [->|Hk2]; [by right|].
      rewrite !lookup_insert_ne in Hk by done.
      left. by eapply X_hist_row_keys. }
  split; [|done].
  destruct (row !! TARGET_COL) as [v|] eqn:Hv; [|done].
  destruct (Hkeys TARGET_COL) as [Hf|Hy]; [by eexists| |done].
  by apply TARGET_not_feature in Hf.
Qed.

Lemma zip_map_map {A B C} (f : A → B) (g : A → C) (l : list A) :
  zip (map f l) (map g l) = map (λ a, (f a, g a)) l.
Proof. induction l as [|a l IH]; [done|]. cbn. by f_equal. Qed.

(** X10. A successful POST /predict response lists the years of
    GET /analysis for the same country followed by the requested year, and
    its values under the selected model's key in GET /compare followed by
    the prediction: the three handlers report the same history and the same
    fit. *)
Theorem predict_agrees_with_compare body tr resp :
  predict body = (tr, Return resp) →
  ∃ res a,
    result (compare (country body)) = Return res
    ∧ result (country_analysis (country body)) = Return a
    ∧ PredictResponse.years resp
      = AnalysisResponse.years a ++ [year body]
    ∧ CompareResponse.years res = AnalysisResponse.years a
    ∧ PredictResponse.values resp
      = compare_field res (PredictResponse.model_used resp)
        ++ [PredictResponse.predicted resp].
Proof.
  intros Hrun.
  apply predict_Return_inv in Hrun
    as (y_fit & p & y_future & cur & errors & Hc & _ & Hfit & _ & _ & _ & _
        & _ & ->).
  rewrite (compare_valid_run _ Hc), (country_analysis_valid_run _ Hc).
  eexists _, _. split; [done|]. split; [done|]. cbn.
  split; [done|]. split; [done|]. f_equal.
  pose proof (select_elem_of (models body)) as Hin.
  destruct (select (models body)) as [key model]. simpl in Hfit |- *.
  unfold compare_field, fit_or_empty.
  apply model_map_cases in Hin as [[-> ->]|[[-> ->]|[-> ->]]];
    simpl; by rewrite Hfit.
Qed.

(** X11. A successful POST /predict response ends with the request: the
    last year is the requested year and the last value is the prediction.
    The band has as many entries as there are values, and when the selected
    model returns one prediction per row, years, values and band all have
    the number of history rows plus one entries. *)
Theorem predict_response_shape body tr resp :
  predict body = (tr, Return resp) →
  last (PredictResponse.years resp) = Some (year body)
  ∧ last (PredictResponse.values resp) = Some (PredictResponse.predicted resp)
  ∧ length (PredictResponse.band resp)
    = length (PredictResponse.values resp)
  ∧ length (PredictResponse.years resp)
    = S (length (history (country body)))
  ∧ (one_per_row (select (models body)).2 →
     length (PredictResponse.values resp)
     = length (PredictResponse.years resp)).
Proof.
  intros Hrun.
  apply predict_Return_inv in Hrun
    as (y_fit & p & y_future & cur & errors & Hc & _ & Hfit & _ & _ & _ & _
        & _ & ->).
  cbn. rewrite !last_snoc, !length_app, !length_map. cbn.
  split; [done|]. split; [done|]. split; [done|]. split; [lia|].
  intros Hrow. apply Hrow in Hfit. cbn in Hfit.
  rewrite length_map in Hfit. lia.
Qed.

(** X12. For a country of [COUNTRIES], GET /analysis reports exactly the
    rows of the table for that country: [years] and [true_values] have one
    entry per such row, and a pair (year, value) occurs at some position of
    the answer if and only if some row of the country has that year and
    that target. *)
Theorem analysis_rows_exact c :
  c ∈ COUNTRIES →
  ∃ a,
    country_analysis c = ([], Return a)
    ∧ length (AnalysisResponse.years a)
      = length (filter (λ r, Country r = Some c) df)
    ∧ length (AnalysisResponse.true_values a)
      = length (AnalysisResponse.years a)
    ∧ ∀ y t,
        (y, t) ∈ zip (AnalysisResponse.years a)
                     (AnalysisResponse.true_values a)
        ↔ ∃ r, r ∈ df ∧ Country r = Some c ∧ Year r = y ∧ Target r = t.
Proof.
  intros Hc. rewrite (country_analysis_valid_run c Hc).
  eexists. split; [done|]. cbn.
  rewrite !length_map, (history_Permutation c). split; [done|].
  split; [done|]. intros y t. rewrite zip_map_map, map_fmap.
  rewrite list_elem_of_fmap. split.
  - intros (r & [= -> ->] & Hr). apply elem_of_history in Hr as [? ?].
    by exists r.
  - intros (r & Hr & Hcr & <- & <-). exists r. split; [done|].
    by apply elem_of_history.
Qed.

(** ** Further properties: band and percent change *)

Lemma np_sum_constant l c :
  Forall (λ x, x = c) l → np_sum l = (INR (length l) * c)%R.
Proof.
  unfold np_sum. induction 1 as [|x l -> _ IH]; [simpl; lra|].
  cbn [foldr length]. rewrite IH, S_INR. lra.
Qed.

Lemma np_mean_constant l c :
  l ≠ [] → Forall (λ x, x = c) l → np_mean l = c.
Proof.
  intros Hne Hall. unfold np_mean. rewrite (np_sum_constant l c Hall).
  assert (INR (length l) ≠ 0%R) as Hn.
  { apply not_0_INR. by destruct l. }
  by field.
Qed.

Lemma np_std_constant l c : Forall (λ x, x = c) l → np_std l = 0%R.
Proof.
  intros Hall. unfold np_std. destruct l as [|x l].
  - unfold np_mean, np_sum. simpl. unfold Rdiv. rewrite Rmult_0_l.
    apply sqrt_0.
  - rewrite (np_mean_constant (x :: l) c) by done.
    rewrite (np_mean_constant _ 0%R); [apply sqrt_0 | done |].
    apply Forall_forall. intros y Hy. apply list_elem_of_In in Hy.
    apply in_map_iff in Hy as (z & <- & Hz).
    apply list_elem_of_In in Hz.
    rewrite Forall_forall in Hall. rewrite (Hall z Hz). lra.
Qed.

(** X13. When the selected model returns exactly the recorded consumption
    at every historical year, the band of a successful POST /predict
    response has no width: every entry, the one of the requested year
    included, is the value itself, twice. *)
Theorem band_exact_fit body tr resp :
  predict body = (tr, Return resp) →
  run_predict (select (models body)).2
    (getitem_columns (history (country body)) FEATURE_COLUMNS)
  = inr (map Target (history (country body))) →
  length (PredictResponse.band resp)
  = length (PredictResponse.values resp)
  ∧ ∀ i v,
      PredictResponse.values resp !! i = Some v →
      PredictResponse.band resp !! i = Some (v, v).
Proof.
  intros Hrun Hexact.
  apply predict_Return_inv in Hrun
    as (y_fit & p & y_future & cur & errors & _ & _ & Hfit & _ & _ & _
        & Herr & _ & ->).
  rewrite Hfit in Hexact. injection Hexact as ->.
  rewrite np_sub_same_length in Herr by done.
  injection Herr as <-.
  set (ys := map Target (history (country body))).
  assert (Forall (λ x, x = 0%R) (zip_with Rminus ys ys)) as Hzero.
  { apply Forall_forall. intros e He.
    apply list_elem_of_lookup in He as [i Hi].
    apply lookup_zip_with_Some in Hi as (t & f & -> & Ht & Hf).
    rewrite Ht in Hf. injection Hf as <-. lra. }
  cbn [PredictResponse.band PredictResponse.values].
  split; [by rewrite !length_app, length_map|].
  intros i v Hv.
  set (std := if decide (length (zip_with Rminus ys ys) ≠ 0%nat)
              then np_std (zip_with Rminus ys ys) else 0%R).
  assert (std = 0%R) as ->.
  { unfold std. case_decide; [|done]. by apply np_std_constant with 0%R. }
  assert (map (λ v, ((v - 2 * 0)%R, (v + 2 * 0)%R)) ys
          ++ [((y_future - 2 * 0)%R, (y_future + 2 * 0)%R)]
          = map (λ v, ((v - 2 * 0)%R, (v + 2 * 0)%R))
                (ys ++ [y_future])) as ->.
  { by rewrite map_app. }
  rewrite map_fmap, list_lookup_fmap, Hv. simpl.
  f_equal. f_equal; lra.
Qed.

(** X14. The sign of [change] in a successful POST /predict response.  For
    a positive [current], [change] is non-negative exactly when the
    prediction is at least [current]; for a negative [current] the sign is
    reversed: [change] is non-negative exactly when the prediction is at
    most [current].  A prediction equal to [current] gives a change of
    zero. *)
Theorem change_sign body tr resp :
  predict body = (tr, Return resp) →
  let cur := PredictResponse.current resp in
  let pred := PredictResponse.predicted resp in
  let ch := PredictResponse.change resp in
  ((0 < cur)%R → ((0 <= ch)%R ↔ (cur <= pred)%R))
  ∧ ((cur < 0)%R → ((0 <= ch)%R ↔ (pred <= cur)%R))
  ∧ (pred = cur → ch = 0%R).
Proof.
  intros Hrun.
  apply predict_Return_inv in Hrun
    as (y_fit & p & y_future & cur & errors & _ & _ & _ & _ & _ & _
        & _ & _ & ->).
  cbn. split; [|split].
  - intros Hpos. rewrite decide_True by lra.
    assert (0 < / cur)%R as Hinv by (by apply Rinv_0_lt_compat).
    unfold Rdiv. split; intros H; nra.
  - intros Hneg. rewrite decide_True by lra.
    assert (/ cur < 0)%R as Hinv by (by apply Rinv_lt_0_compat).
    unfold Rdiv. split; intros H; nra.
  - intros ->. case_decide; [|done]. unfold Rdiv. ring.
Qed.

(** ** Further properties: the future row, selection and start-up *)

(** X15. Asking for the last year of the history gives the model the last
    history row again: when the file has a [Year] column, the forecast
    frame for a country of the table and its greatest recorded year is the
    frame [X_hist.iloc[-1:]] itself, rows and columns. *)
Theorem X_pred_last_year c r_last :
  "Year" ∈ df_columns →
  last (history c) = Some r_last →
  X_pred (getitem_columns (history c) FEATURE_COLUMNS) c (Year r_last)
  = iloc_last (getitem_columns (history c) FEATURE_COLUMNS).
Proof.
  intros Hy%elem_of_FEATURE_COLUMNS_Year Hlast.
  assert (Country r_last = Some c) as Hc.
  { apply last_Some_elem_of in Hlast as Hin.
    by apply elem_of_history in Hin as [_ ?]. }
  set (row := filter (λ kv : string * cell, kv.1 ∈ FEATURE_COLUMNS)
                     (cells r_last)).
  assert (row !! "Year" = Some (CInt (Year r_last))) as HrowY.
  { apply map_lookup_filter_Some. split; [|done].
    unfold cells. by rewrite lookup_insert_ne, lookup_insert_eq. }
  assert (row !! "Country" = Some (CStr c)) as HrowC.
  { apply map_lookup_filter_Some.
    split; [|apply elem_of_FEATURE_COLUMNS_Country].
    unfold cells. by rewrite lookup_insert_eq, Hc. }
  unfold X_pred, setitem, iloc_last, getitem_columns. cbn [rows columns].
  rewrite (map_fmap _ (history c)), fmap_last, Hlast. cbn.
  rewrite (decide_True (P := "Year" ∈ FEATURE_COLUMNS)) by done.
  rewrite decide_True by apply elem_of_FEATURE_COLUMNS_Country.
  f_equal. fold row. f_equal.
  rewrite (insert_id row "Year") by done. by rewrite insert_id.
Qed.

Lemma eqb_nocase_ascii_lower_eq a b :
  eqb_nocase_ascii a b = true → lower_ascii a = lower_ascii b.
Proof.
  unfold eqb_nocase_ascii, lower_ascii.
  rewrite !orb_true_iff, !andb_true_iff, !N.eqb_eq, !N.leb_le.
  intros [[Heq|((H1 & H2) & Heq)]|((H1 & H2) & Heq)].
  - by rewrite <- (Ascii.ascii_N_embedding a), Heq, Ascii.ascii_N_embedding.
  - rewrite Heq.
    destruct (65 <=? Ascii.N_of_ascii a)%N eqn:E1; [|apply N.leb_gt in E1; lia].
    destruct (Ascii.N_of_ascii a <=? 90)%N eqn:E2; [|apply N.leb_gt in E2; lia].
    destruct (Ascii.N_of_ascii a + 32 <=? 90)%N eqn:E3;
      [apply N.leb_le in E3; lia|].
    rewrite andb_false_r. simpl.
    by rewrite <- Heq, Ascii.ascii_N_embedding.
  - rewrite Heq.
    destruct (65 <=? Ascii.N_of_ascii b)%N eqn:E1; [|apply N.leb_gt in E1; lia].
    destruct (Ascii.N_of_ascii b <=? 90)%N eqn:E2; [|apply N.leb_gt in E2; lia].
    destruct (Ascii.N_of_ascii b + 32 <=? 90)%N eqn:E3;
      [apply N.leb_le in E3; lia|].
    rewrite andb_false_r. simpl.
    by rewrite <- Heq, Ascii.ascii_N_embedding.
Qed.

Lemma eqb_nocase_ascii_lower_eq_str s1 s2 :
  eqb_nocase s1 s2 = true → ascii_lower s1 = ascii_lower s2.
Proof.
  revert s2. induction s1 as [|a s1 IH]; intros [|b s2]; simpl; try done.
  rewrite andb_true_iff. intros [Hab Hs].
  by rewrite (eqb_nocase_ascii_lower_eq a b Hab), (IH s2 Hs).
Qed.

Lemma eqb_nocase_lower_eq s1 s2 :
  eqb_nocase s1 s2 = true → lower s1 = lower s2.
Proof.
  intros Heq. unfold lower.
  by rewrite (eqb_nocase_ascii_lower_eq_str s1 s2 Heq).
Qed.

(** X16. Model selection does not depend on the case of the requested
    names: two lists of names that are equal position by position up to the
    case of ASCII letters select the same registry entry. *)
Theorem select_case_insensitive names names' :
  Forall2 (λ a b, eqb_nocase a b = true) names names' →
  select names = select names'.
Proof.
  induction 1 as [|a b names names' Hab _ IH]; [done|].
  change (select (a :: names))
    with (match dict_get model_map (lower a) with
          | Some model => (lower a, model)
          | None => select names
          end).
  change (select (b :: names'))
    with (match dict_get model_map (lower b) with
          | Some model => (lower b, model)
          | None => select names'
          end).
  by rewrite (eqb_nocase_lower_eq a b Hab), IH.
Qed.

Lemma path_lasso :
  os_path_join MODELS_PATH "lasso_fixed.pkl" = "models/lasso_fixed.pkl".
Proof. reflexivity. Qed.

Lemma path_ridge :
  os_path_join MODELS_PATH "ridge_fixed.pkl" = "models/ridge_fixed.pkl".
Proof. reflexivity. Qed.

Lemma path_knn :
  os_path_join MODELS_PATH "knn_fixed.pkl" = "models/knn_fixed.pkl".
Proof. reflexivity. Qed.

Lemma load_model_map_run fs :
  load_model_map fs
  = match fs !! "models/lasso_fixed.pkl" with
    | None =>
        ([], Raise (PyException "RuntimeError"
                      "Model file missing: models/lasso_fixed.pkl"))
    | Some (inl msg) => ([], Raise (PyException "Exception" msg))
    | Some (inr m1) =>
        match fs !! "models/ridge_fixed.pkl" with
        | None =>
            ([], Raise (PyException "RuntimeError"
                          "Model file missing: models/ridge_fixed.pkl"))
        | Some (inl msg) => ([], Raise (PyException "Exception" msg))
        | Some (inr m2) =>
            match fs !! "models/knn_fixed.pkl" with
            | None =>
                ([], Raise (PyException "RuntimeError"
                              "Model file missing: models/knn_fixed.pkl"))
            | Some (inl msg) => ([], Raise (PyException "Exception" msg))
            | Some (inr m3) =>
                ([], Return [("lasso", m1); ("ridge", m2); ("knn", m3)])
            end
        end
    end.
Proof.
  unfold load_model_map, load_model. rewrite path_lasso, path_ridge, path_knn.
  destruct (fs !! "models/lasso_fixed.pkl") as [[?|m1]|]; [done| |done].
  destruct (fs !! "models/ridge_fixed.pkl") as [[?|m2]|]; [done| |done].
  by destruct (fs !! "models/knn_fixed.pkl") as [[?|m3]|].
Qed.

(** X17. Loading the registry at start-up is all or nothing.  It returns
    exactly when each of the three artifact files exists and loads, and
    then the registry holds the three models under the keys lasso, ridge
    and knn, in that order.  If a file is absent and the files before it
    load, the error is a [RuntimeError] naming the path of that file. *)
Theorem load_model_map_all_or_nothing fs :
  let files := ["lasso_fixed.pkl"; "ridge_fixed.pkl"; "knn_fixed.pkl"] in
  ((∃ reg, load_model_map fs = ([], Return reg))
   ↔ ∀ f, f ∈ files →
          ∃ m, fs !! os_path_join MODELS_PATH f = Some (inr m))
  ∧ (∀ reg,
       result (load_model_map fs) = Return reg →
       ∃ m1 m2 m3,
         reg = [("lasso", m1); ("ridge", m2); ("knn", m3)]
         ∧ load_model fs "lasso_fixed.pkl" = ([], Return m1)
         ∧ load_model fs "ridge_fixed.pkl" = ([], Return m2)
         ∧ load_model fs "knn_fixed.pkl" = ([], Return m3))
  ∧ (∀ pre f post,
       files = pre ++ f :: post →
       (∀ g, g ∈ pre →
             ∃ m, fs !! os_path_join MODELS_PATH g = Some (inr m)) →
       fs !! os_path_join MODELS_PATH f = None →
       result (load_model_map fs)
       = Raise (PyException "RuntimeError"
                  ("Model file missing: " +:+ os_path_join MODELS_PATH f))).
Proof.
  intros files. rewrite load_model_map_run. split; [|split].
  - split.
    + intros [reg Hreg] f Hf.
      destruct (fs !! "models/lasso_fixed.pkl") as [[?|m1]|] eqn:H1;
        [done| |done].
      destruct (fs !! "models/ridge_fixed.pkl") as [[?|m2]|] eqn:H2;
        [done| |done].
      destruct (fs !! "models/knn_fixed.pkl") as [[?|m3]|] eqn:H3;
        [done| |done].
      unfold files in Hf.
      apply elem_of_cons in Hf as [->|Hf];
        [rewrite path_lasso; by exists m1|].
      apply elem_of_cons in Hf as [->|Hf];
        [rewrite path_ridge; by exists m2|].
      apply elem_of_cons in Hf as [->|Hf];
        [rewrite path_knn; by exists m3|].
      by apply elem_of_nil in Hf.
    + intros Hall.
      destruct (Hall "lasso_fixed.pkl") as [m1 H1]; [by left|].
      destruct (Hall "ridge_fixed.pkl") as [m2 H2]; [by right; left|].
      destruct (Hall "knn_fixed.pkl") as [m3 H3];
        [by right; right; left|].
      rewrite path_lasso in H1. rewrite path_ridge in H2.
      rewrite path_knn in H3. rewrite H1, H2, H3. by eexists.
  - intros reg. unfold load_model. rewrite path_lasso, path_ridge, path_knn.
    destruct (fs !! "models/lasso_fixed.pkl") as [[?|m1]|]; [done| |done].
    destruct (fs !! "models/ridge_fixed.pkl") as [[?|m2]|]; [done| |done].
    destruct (fs !! "models/knn_fixed.pkl") as [[?|m3]|]; [done| |done].
    intros [= <-]. by exists m1, m2, m3.
  - intros pre f post Hfiles Hpre Hf. unfold files in Hfiles.
    destruct pre as [|g1 [|g2 [|g3 pre]]]; simplify_eq/=.
    + rewrite path_lasso in Hf |- *. by rewrite Hf.
    + destruct (Hpre "lasso_fixed.pkl") as [m1 H1]; [by left|].
      rewrite path_lasso in H1. rewrite path_ridge in Hf |- *.
      by rewrite H1, Hf.
    + destruct (Hpre "lasso_fixed.pkl") as [m1 H1]; [by left|].
      destruct (Hpre "ridge_fixed.pkl") as [m2 H2]; [by right; left|].
      rewrite path_lasso in H1. rewrite path_ridge in H2.
      rewrite path_knn in Hf |- *. by rewrite H1, H2, Hf.
    + by destruct pre.
Qed.

Lemma mape_spec_perfect y :
  mape_spec y y
  = if decide (Forall (λ t, t = 0%R) y) then None else Some 0%R.
Proof.
  unfold mape_spec.
  pose proof (nonzero_points_nil y y eq_refl) as Hnil.
  assert (Forall (λ tp : R * R, tp.1 = tp.2)
                 (filter (λ tp : R * R, tp.1 ≠ 0%R) (zip y y))) as Hdiag.
  { apply Forall_forall. intros [a b] Hin.
    apply list_elem_of_filter in Hin as [_ Hin].
    clear -Hin. induction y as [|t y IH]; cbn in Hin.
    - by apply elem_of_nil in Hin.
    - apply elem_of_cons in Hin as [[= -> ->]|Hin]; [done | by apply IH]. }
  destruct (filter _ (zip y y)) as [|tp pts] eqn:Hpts.
  - rewrite decide_True; [done|]. by apply Hnil.
  - rewrite decide_False; [|intros Hall%Hnil; done].
    f_equal. apply np_mean_constant; [done|].
    apply Forall_forall. intros x Hx. apply list_elem_of_In in Hx.
    apply in_map_iff in Hx as ([a b] & <- & Hin).
    apply list_elem_of_In in Hin.
    rewrite Forall_forall in Hdiag. specialize (Hdiag _ Hin). cbn in *.
    subst b. unfold Rminus, Rdiv. rewrite Rplus_opp_r, Rmult_0_l, Rabs_R0.
    lra.
Qed.

(** X18. A perfect fit has a MAPE of zero.  For a country of [COUNTRIES]
    and a registry model whose predictions over the history equal the true
    targets, GET /metrics reports a MAPE of 0 for that model, or null when
    every true target is zero (the metric functions of [sklearn] being
    assumed to return). *)
Theorem metrics_perfect_fit c name model :
  c ∈ COUNTRIES →
  (name, model) ∈ model_map →
  sklearn_returns mean_absolute_error →
  sklearn_returns mean_squared_error →
  sklearn_returns r2_score →
  run_predict model (getitem_columns (history c) FEATURE_COLUMNS)
  = inr (map Target (history c)) →
  ∃ tr results entry,
    metrics c = (tr, Return results)
    ∧ results !! name = Some entry
    ∧ MetricsEntry.MAPE entry
      = if decide (Forall (λ t, t = 0%R) (map Target (history c)))
        then None else Some 0%R.
Proof.
  intros Hc Hin Hmae Hmse Hr2 Hfit.
  set (y := map Target (history c)) in *.
  assert (y ≠ []) as Hne.
  { pose proof (history_nonempty c Hc). unfold y. by destruct (history c). }
  destruct (metrics_entry_ok name model _ y y Hmae Hmse Hr2 Hfit Hne eq_refl)
    as (mae & rmse & r2 & Hok).
  destruct (metrics_valid_run c Hc) as (e1 & e2 & e3 & H1 & H2 & H3 & Hrun).
  fold y in H1, H2, H3.
  rewrite <- (mape_spec_perfect y).
  apply model_map_cases in Hin as [[-> ->]|[[-> ->]|[-> ->]]].
  - rewrite Hok in H1. injection H1 as <-.
    eexists _, _, _. split; [exact Hrun|].
    split; [rewrite !lookup_insert_ne by done; by rewrite lookup_insert_eq|].
    done.
  - rewrite Hok in H2. injection H2 as <-.
    eexists _, _, _. split; [exact Hrun|].
    split; [rewrite lookup_insert_ne by done; by rewrite lookup_insert_eq|].
    done.
  - rewrite Hok in H3. injection H3 as <-.
    eexists _, _, _. split; [exact Hrun|].
    split; [by rewrite lookup_insert_eq | done].
Qed.

(** X19. Selection over a concatenation: if some name of the first list
    denotes a registry entry, the second list is ignored; if none does, the
    first list is skipped and the second decides. *)
Theorem select_app l1 l2 :
  (Exists (λ n, is_Some (in_registry n)) l1 →
   select (l1 ++ l2) = select l1)
  ∧ (Forall (λ n, in_registry n = None) l1 →
     select (l1 ++ l2) = select l2).
Proof.
  split.
  - induction l1 as [|a l1 IH]; intros Hex; [by apply Exists_nil in Hex|].
    change (select ((a :: l1) ++ l2))
      with (match dict_get model_map (lower a) with
            | Some model => (lower a, model)
            | None => select (l1 ++ l2)
            end).
    change (select (a :: l1))
      with (match dict_get model_map (lower a) with
            | Some model => (lower a, model)
            | None => select l1
            end).
    destruct (dict_get model_map (lower a)) as [model|] eqn:Hd; [done|].
    apply IH. apply Exists_cons in Hex as [[kv Hkv]|Hex]; [|done].
    rewrite in_registry_lower, Hd in Hkv. done.
  - induction 1 as [|a l1 Ha _ IH]; [done|].
    change (select ((a :: l1) ++ l2))
      with (match dict_get model_map (lower a) with
            | Some model => (lower a, model)
            | None => select (l1 ++ l2)
            end).
    rewrite in_registry_lower in Ha.
    by destruct (dict_get model_map (lower a)).
Qed.

(** X20. The series of GET /compare line up with its years: for a country
    of [COUNTRIES] and a registry model that returns one prediction per
    row, the list under the model's key is empty (its [predict] raised) or
    has exactly one value per year. *)
Theorem compare_series_aligned c name model :
  c ∈ COUNTRIES →
  (name, model) ∈ model_map →
  one_per_row model →
  ∃ res,
    result (compare c) = Return res
    ∧ length (CompareResponse.years res) = length (history c)
    ∧ match run_predict model (getitem_columns (history c) FEATURE_COLUMNS)
      with
      | inl _ => compare_field res name = []
      | inr _ => length (compare_field res name)
                 = length (CompareResponse.years res)
      end.
Proof.
  intros Hc Hin Hrow. rewrite (compare_valid_run c Hc).
  eexists. split; [done|]. cbn [CompareResponse.years].
  rewrite length_map. split; [done|].
  assert (compare_field
            {| CompareResponse.years := map Year (history c);
               CompareResponse.lasso :=
                 fit_or_empty lasso_fixed
                   (getitem_columns (history c) FEATURE_COLUMNS);
               CompareResponse.ridge :=
                 fit_or_empty ridge_fixed
                   (getitem_columns (history c) FEATURE_COLUMNS);
               CompareResponse.knn :=
                 fit_or_empty knn_fixed
                   (getitem_columns (history c) FEATURE_COLUMNS) |} name
          = fit_or_empty model
              (getitem_columns (history c) FEATURE_COLUMNS)) as ->.
  { by apply model_map_cases in Hin as [[-> ->]|[[-> ->]|[-> ->]]]. }
  unfold fit_or_empty.
  destruct (run_predict model _) as [msg|ys] eqn:Hrun; [done|].
  apply Hrow in Hrun. cbn in Hrun. by rewrite length_map in Hrun.
Qed.

(** X21. POST /predict calls only the model it selected, and at most
    twice: every model call in its trace carries the selected key, and the
    trace has at most three events, the first being the feature
    construction. *)
Theorem predict_calls_selected_only body :
  (∀ key X, EvPredict key X ∈ trace (predict body) →
            key = (select (models body)).1)
  ∧ (length (trace (predict body)) ≤ 3)%nat
  ∧ (∀ ev, head (trace (predict body)) = Some ev →
           ev = EvBuildFeatures (country body)).
Proof.
  destruct (decide (country body ∈ COUNTRIES)) as [Hc|Hc].
  - rewrite (predict_trace body Hc).
    destruct (run_predict _ _) as [msg|y_fit].
    + split; [|split; [cbn; lia | by intros ev [= <-]]].
      intros key X Hin.
      apply elem_of_cons in Hin as [?|Hin]; [done|].
      apply list_elem_of_singleton in Hin. by injection Hin.
    + split; [|split; [cbn; lia | by intros ev [= <-]]].
      intros key X Hin.
      apply elem_of_cons in Hin as [?|Hin]; [done|].
      apply elem_of_cons in Hin as [[= -> _]|Hin]; [done|].
      apply list_elem_of_singleton in Hin. by injection Hin.
  - unfold predict. rewrite decide_True by done. cbn.
    split; [|split; [lia | done]].
    intros key X Hin. by apply elem_of_nil in Hin.
Qed.

End ForecastService.

(** ** The properties at work on the sample table

    The registry used below maps lasso to the constant regressor, ridge to
    the regressor that raises and knn to the regressor that follows the
    year. *)

Lemma Brazil_known : "Brazil" ∈ COUNTRIES sample_df.
Proof. compute_done. Qed.

Lemma India_known : "India" ∈ COUNTRIES sample_df.
Proof. compute_done. Qed.

Lemma Brazil_targets :
  map Target (history sample_df "Brazil") = [100; 105; 110]%R.
Proof. vm_compute. reflexivity. Qed.

Lemma India_targets : map Target (history sample_df "India") = [0; 0]%R.
Proof. vm_compute. reflexivity. Qed.

Lemma trend_model_one_per_row : one_per_row trend_model.
Proof. intros X ys [= <-]. apply length_map. Qed.

Lemma trend_model_never_raises : never_raises trend_model.
Proof. intros X. by eexists. Qed.

Lemma flat_model_fit c :
  run_predict flat_model
    (getitem_columns (history sample_df c) (FEATURE_COLUMNS sample_columns))
  = inr (map (λ _, 105%R) (history sample_df c)).
Proof. simpl. by rewrite map_map. Qed.

Lemma sample_metric_returns f : sklearn_returns (sample_metric f).
Proof.
  intros y_true y_pred Hne Hl. unfold sample_metric.
  rewrite decide_True; [by eexists|].
  split; [done|]. by destruct y_true.
Qed.

Lemma sample_predict_returns :
  ∃ tr resp,
    predict sample_df sample_columns flat_model broken_model trend_model
            sample_unicode_lower (mkPredictInput "Brazil" 2025 ["knn"])
    = (tr, Return resp).
Proof.
  apply predict_returns.
  - apply Brazil_known.
  - apply trend_model_one_per_row.
  - apply trend_model_never_raises.
Qed.

Lemma predict_unknown_country_witness :
  ("Atlantis" ∉ COUNTRIES sample_df)
  ∧ status_code
      (result (predict sample_df sample_columns flat_model broken_model
                       trend_model sample_unicode_lower
                       (mkPredictInput "Atlantis" 2030 ["ridge"])))
    = 400%Z
  ∧ trace (predict sample_df sample_columns flat_model broken_model
                   trend_model sample_unicode_lower
                   (mkPredictInput "Atlantis" 2030 ["ridge"]))
    = [].
Proof.
  assert ("Atlantis" ∉ COUNTRIES sample_df) as Hc by compute_done.
  split; [exact Hc|].
  destruct (predict_unknown_country sample_df sample_columns flat_model
              broken_model trend_model sample_unicode_lower
              (mkPredictInput "Atlantis" 2030 ["ridge"]) Hc)
    as (_ & Hs & _ & Ht).
  split; [exact Hs | exact Ht].
Defined.

Lemma select_first_match_witness :
  select flat_model broken_model trend_model sample_unicode_lower
    ["svm"; "KNN"; "ridge"]
  = ("knn", trend_model)
  ∧ select flat_model broken_model trend_model sample_unicode_lower
      ["svm"; "Lasso "]
    = ("lasso", flat_model)
  ∧ select flat_model broken_model trend_model sample_unicode_lower
      [kelvin_NN; "ridge"]
    = ("knn", trend_model).
Proof.
  destruct (select_first_match sample_df sample_columns flat_model
              broken_model trend_model sample_unicode_lower
              ["svm"; "KNN"; "ridge"])
    as (_ & Hfirst & _).
  destruct (select_first_match sample_df sample_columns flat_model
              broken_model trend_model sample_unicode_lower
              ["svm"; "Lasso "])
    as (_ & _ & Hnone & _).
  destruct (select_first_match sample_df sample_columns flat_model
              broken_model trend_model sample_unicode_lower
              [kelvin_NN; "ridge"])
    as (_ & Hkelvin & _).
  split; [|split].
  - apply (Hfirst ["svm"] "KNN" ["ridge"] ("knn", trend_model));
      [reflexivity | repeat constructor | reflexivity].
  - apply Hnone. repeat constructor.
  - apply (Hkelvin [] kelvin_NN ["ridge"] ("knn", trend_model));
      [reflexivity | constructor | reflexivity].
Defined.

Lemma predict_current_change_witness :
  ∃ tr resp p,
    predict sample_df sample_columns flat_model broken_model trend_model
            sample_unicode_lower (mkPredictInput "Brazil" 2025 ["knn"])
    = (tr, Return resp)
    ∧ run_predict trend_model
        (X_pred (getitem_columns (history sample_df "Brazil")
                   (FEATURE_COLUMNS sample_columns)) "Brazil" 2025)
      = inr p
    ∧ head p = Some (PredictResponse.predicted resp)
    ∧ (PredictResponse.current resp ≠ 0%R →
       PredictResponse.change resp
       = ((PredictResponse.predicted resp - PredictResponse.current resp)
          / PredictResponse.current resp * 100)%R)
    ∧ (PredictResponse.current resp = 0%R →
       PredictResponse.change resp = 0%R).
Proof.
  destruct sample_predict_returns as (tr & resp & Hrun).
  destruct (predict_current_change _ _ _ _ _ _ _ _ _ Hrun)
    as (y_fit & p & _ & _ & Hp & Hhead & _ & Hnz & Hz).
  exists tr, resp, p. split; [exact Hrun|].
  split; [exact Hp|]. split; [exact Hhead|].
  split; [exact Hnz | exact Hz].
Defined.

Lemma predict_band_witness :
  ∃ tr resp,
    predict sample_df sample_columns flat_model broken_model trend_model
            sample_unicode_lower (mkPredictInput "Brazil" 2025 ["knn"])
    = (tr, Return resp)
    ∧ length (PredictResponse.band resp) = 4%nat
    ∧ (∀ i lo hi v,
         PredictResponse.band resp !! i = Some (lo, hi) →
         PredictResponse.values resp !! i = Some v →
         (lo <= v <= hi)%R).
Proof.
  destruct sample_predict_returns as (tr & resp & Hrun).
  exists tr, resp. split; [exact Hrun|].
  destruct (predict_band _ _ _ _ _ _ _ _ _ Hrun)
    as (std & y_fit & _ & _ & _ & _ & Hin & Hlen).
  split; [|exact Hin].
  destruct (Hlen trend_model_one_per_row) as [-> _].
  vm_compute. reflexivity.
Defined.

Lemma compare_never_raises_witness :
  (∃ res,
     result (compare sample_df sample_columns flat_model broken_model
                     trend_model "Brazil") = Return res
     ∧ CompareResponse.years res = [2018; 2019; 2020]%Z
     ∧ CompareResponse.lasso res = [105; 105; 105]%R
     ∧ CompareResponse.ridge res = []
     ∧ length (CompareResponse.knn res) = 3%nat)
  ∧ (∃ res,
       result (compare sample_df sample_columns broken_model broken_model
                       broken_model "Brazil") = Return res
       ∧ CompareResponse.lasso res = []
       ∧ CompareResponse.ridge res = []
       ∧ CompareResponse.knn res = []).
Proof.
  split.
  - destruct (compare_never_raises sample_df sample_columns flat_model
                broken_model trend_model "Brazil" Brazil_known)
      as (res & Hrun & _ & Hy & Hl & Hr & Hk & _).
    exists res. rewrite Hrun, Hy, Hl, Hr, Hk.
    split; [reflexivity|]. split; [vm_compute; reflexivity|].
    split; [vm_compute; reflexivity|]. split; [reflexivity|].
    vm_compute. reflexivity.
  - destruct (compare_never_raises sample_df sample_columns broken_model
                broken_model broken_model "Brazil" Brazil_known)
      as (res & Hrun & _ & _ & _ & _ & _ & Hall).
    exists res. rewrite Hrun. split; [reflexivity|]. apply Hall.
    intros name model Hin. exists "Found unknown categories in column 0".
    repeat (apply elem_of_cons in Hin as [[= _ ->]|Hin]; [reflexivity|]).
    apply elem_of_nil in Hin. destruct Hin.
Defined.

Lemma metrics_mape_witness :
  (∃ results entry,
     result (metrics sample_df sample_columns flat_model broken_model
                     trend_model sample_mae sample_mse sample_r2 "India")
     = Return results
     ∧ results !! "lasso" = Some entry
     ∧ MetricsEntry.MAPE entry = None)
  ∧ (∃ results entry,
       result (metrics sample_df sample_columns flat_model broken_model
                       trend_model sample_mae sample_mse sample_r2 "Brazil")
       = Return results
       ∧ results !! "lasso" = Some entry
       ∧ MetricsEntry.MAPE entry
         = Some (np_mean [ Rabs ((100 - 105) / 100) * 100;
                           Rabs ((105 - 105) / 105) * 100;
                           Rabs ((110 - 105) / 110) * 100 ])%R).
Proof.
  split.
  - destruct (metrics_mape sample_df sample_columns flat_model broken_model
                trend_model sample_mae sample_mse sample_r2
                "India" "lasso" flat_model
                (map (λ _, 105%R) (history sample_df "India")))
      as (tr & results & entry & Hrun & Hres & Hnull & _).
    + exact India_known.
    + left.
    + apply sample_metric_returns.
    + apply sample_metric_returns.
    + apply sample_metric_returns.
    + apply flat_model_fit.
    + apply length_map.
    + exists results, entry. rewrite Hrun. split; [reflexivity|].
      split; [exact Hres|].
      apply Hnull. rewrite India_targets. repeat constructor.
  - destruct (metrics_mape sample_df sample_columns flat_model broken_model
                trend_model sample_mae sample_mse sample_r2
                "Brazil" "lasso" flat_model
                (map (λ _, 105%R) (history sample_df "Brazil")))
      as (tr & results & entry & Hrun & Hres & _ & _ & Hval).
    + exact Brazil_known.
    + left.
    + apply sample_metric_returns.
    + apply sample_metric_returns.
    + apply sample_metric_returns.
    + apply flat_model_fit.
    + apply length_map.
    + exists results, entry. rewrite Hrun. split; [reflexivity|].
      split; [exact Hres|].
      rewrite Hval.
      * rewrite <- (map_map Target (λ _, 105%R)), Brazil_targets.
        cbn [map zip zip_with]. rewrite !filter_cons. cbn [fst].
        rewrite !decide_True by lra. reflexivity.
      * rewrite Brazil_targets. intros Hall.
        apply Forall_cons in Hall as [H100 _]. lra.
Defined.

Lemma future_row_holds_last_witness :
  "Brazil" ∈ COUNTRIES sample_df
  ∧ ∃ r_last row_last row_future,
      last (history sample_df "Brazil") = Some r_last
      ∧ last (rows (getitem_columns (history sample_df "Brazil")
                      (FEATURE_COLUMNS sample_columns))) = Some row_last
      ∧ rows (X_pred (getitem_columns (history sample_df "Brazil")
                        (FEATURE_COLUMNS sample_columns)) "Brazil" 2025)
        = [row_future]
      ∧ row_future !! "Year" = Some (CInt 2025)
      ∧ row_future !! "Population" = row_last !! "Population".
Proof.
  split; [exact Brazil_known|].
  destruct (future_row_holds_last sample_df sample_columns flat_model
              broken_model trend_model sample_unicode_lower
              (mkPredictInput "Brazil" 2025 ["knn"]) Brazil_known)
    as (r_last & row_last & row_future & H1 & _ & H2 & _ & H3 & H4 & _ & H5
        & _).
  exists r_last, row_last, row_future.
  split; [exact H1|]. split; [exact H2|]. split; [exact H3|].
  split; [exact H4|]. apply H5; discriminate.
Defined.

Lemma analysis_years_sorted_witness :
  "Brazil" ∈ COUNTRIES sample_df
  ∧ ∃ res,
      country_analysis sample_df "Brazil" = ([], Return res)
      ∧ Sorted Z.le (AnalysisResponse.years res).
Proof.
  split; [exact Brazil_known|].
  destruct (analysis_years_sorted sample_df "Brazil" Brazil_known)
    as (res & hist & Hrun & _ & _ & _ & Hs).
  exists res. split; [exact Hrun | exact Hs].
Defined.

Lemma valid_country_has_rows_witness :
  "India" ∈ COUNTRIES sample_df
  ∧ history sample_df "India" ≠ []
  ∧ (∃ v, build_features sample_df sample_columns "India"
          = ([EvBuildFeatures "India"], Return v)).
Proof.
  split; [exact India_known|].
  destruct (valid_country_has_rows sample_df sample_columns "India"
              India_known) as (_ & Hh & _ & Hb & _).
  split; [exact Hh | exact Hb].
Defined.

Lemma predict_extra_fields_witness :
  ∃ tr resp,
    predict sample_df sample_columns flat_model broken_model trend_model
            sample_unicode_lower (mkPredictInput "Brazil" 2025 ["knn"])
    = (tr, Return resp)
    ∧ PredictResponse.metrics resp = []
    ∧ PredictResponse.model_used resp = "knn".
Proof.
  destruct sample_predict_returns as (tr & resp & Hrun).
  exists tr, resp. split; [exact Hrun|].
  destruct (predict_extra_fields _ _ _ _ _ _ _ _ _ Hrun)
    as (Hm & _ & Hk & _).
  split; [exact Hm | exact Hk].
Defined.

(** ** The further properties at work on the sample table *)

Lemma trend_model_fit :
  run_predict trend_model
    (getitem_columns (history sample_df "Brazil")
       (FEATURE_COLUMNS sample_columns))
  = inr [ 5 * (2018 - 2018) + 100; 5 * (2019 - 2018) + 100;
          5 * (2020 - 2018) + 100 ]%R.
Proof. vm_compute. reflexivity. Qed.

Lemma sample_columns_NoDup : NoDup sample_columns.
Proof. compute_done. Qed.

Lemma FEATURE_COLUMNS_layout_witness :
  NoDup sample_columns ∧ NoDup (FEATURE_COLUMNS sample_columns).
Proof.
  split; [exact sample_columns_NoDup|].
  destruct (FEATURE_COLUMNS_layout sample_columns) as (_ & _ & Hnd).
  exact (Hnd sample_columns_NoDup).
Defined.

Lemma build_features_cases_witness :
  (∃ e, result (build_features sample_df sample_columns "Atlantis")
        = Raise e)
  ∧ (∃ v, result (build_features sample_df sample_columns "India")
          = Return v).
Proof.
  split.
  - destruct (build_features_cases sample_df sample_columns "Atlantis")
      as [[_ H]|[(r & Hr & Hc) _]].
    + eexists. exact H.
    + exfalso.
      assert ("Atlantis" ∈ COUNTRIES sample_df) as Hin.
      { apply elem_of_COUNTRIES. exists r. split; [exact Hr | exact Hc]. }
      revert Hin. compute_done.
  - destruct (build_features_cases sample_df sample_columns "India")
      as [[Hno _]|(_ & hist & X & y & H & _)].
    + exfalso. apply Hno. apply elem_of_COUNTRIES. exact India_known.
    + eexists. exact H.
Defined.

Lemma predict_model_failure_witness :
  "Brazil" ∈ COUNTRIES sample_df
  ∧ result (predict sample_df sample_columns flat_model broken_model
                    trend_model sample_unicode_lower
                    (mkPredictInput "Brazil" 2025 ["Ridge"]))
    = Raise (HTTPException 500
               "Prediction failed: Found unknown categories in column 0").
Proof.
  split; [exact Brazil_known|].
  destruct (predict_model_failure sample_df sample_columns flat_model
              broken_model trend_model sample_unicode_lower
              (mkPredictInput "Brazil" 2025 ["Ridge"]) Brazil_known)
    as (Hfit & _ & _).
  rewrite (Hfit "Found unknown categories in column 0" eq_refl).
  reflexivity.
Defined.

Lemma predict_returns_iff_witness :
  "Brazil" ∈ COUNTRIES sample_df
  ∧ ¬ ∃ tr resp,
        predict sample_df sample_columns flat_model broken_model trend_model
                sample_unicode_lower (mkPredictInput "Brazil" 2025 ["ridge"])
        = (tr, Return resp).
Proof.
  split; [exact Brazil_known|].
  intros Hret.
  apply (predict_returns_iff sample_df sample_columns flat_model
           broken_model trend_model sample_unicode_lower
           (mkPredictInput "Brazil" 2025 ["ridge"]))
    in Hret as (_ & y_fit & y_future & p & Hfit & _).
  discriminate Hfit.
Defined.

Lemma metrics_never_raises_witness :
  "Brazil" ∈ COUNTRIES sample_df
  ∧ ∃ results,
      result (metrics sample_df sample_columns flat_model broken_model
                      trend_model sample_mae sample_mse sample_r2 "Brazil")
      = Return results
      ∧ results !! "ridge" = Some metrics_missing.
Proof.
  split; [exact Brazil_known|].
  destruct (metrics_never_raises sample_df sample_columns flat_model
              broken_model trend_model sample_mae sample_mse sample_r2
              "Brazil" Brazil_known) as (results & Hrun & _ & Hmiss).
  exists results. rewrite Hrun. split; [reflexivity|].
  apply (Hmiss "ridge" broken_model).
  - right. left.
  - left. exists "Found unknown categories in column 0". reflexivity.
Defined.

Lemma metrics_entry_invariant_witness :
  ∃ tr results e,
    metrics sample_df sample_columns flat_model broken_model trend_model
            sample_mae sample_mse sample_r2 "Brazil" = (tr, Return results)
    ∧ results !! "lasso" = Some e
    ∧ (MetricsEntry.MAE e = None ↔ MetricsEntry.RMSE e = None)
    ∧ (∀ x, MetricsEntry.MAPE e = Some x → (0 <= x)%R).
Proof.
  destruct (metrics_valid_run sample_df sample_columns flat_model
              broken_model trend_model sample_mae sample_mse sample_r2
              "Brazil" Brazil_known) as (e1 & e2 & e3 & _ & _ & _ & Hrun).
  assert ((<["knn" := e3]> (<["ridge" := e2]> (<["lasso" := e1]> ∅))
            : gmap string MetricsEntry.t) !! "lasso" = Some e1) as Hlook.
  { rewrite !lookup_insert_ne by discriminate. apply lookup_insert_eq. }
  destruct (metrics_entry_invariant _ _ _ _ _ _ _ _ _ _ _ _ _ Hrun Hlook)
    as (H1 & _ & _ & H5).
  eexists _, _, e1. split; [exact Hrun|]. split; [exact Hlook|].
  split; [exact H1 | exact H5].
Defined.

Lemma country_validation_uniform_witness :
  result (metrics sample_df sample_columns flat_model broken_model
                  trend_model sample_mae sample_mse sample_r2 "Atlantis")
  = Raise (HTTPException 400 "Invalid country: Atlantis")
  ∧ ∃ v, result (metrics sample_df sample_columns flat_model broken_model
                         trend_model sample_mae sample_mse sample_r2
                         "Brazil") = Return v.
Proof.
  split.
  - destruct (country_validation_uniform sample_df sample_columns flat_model
                broken_model trend_model sample_mae sample_mse sample_r2
                sample_unicode_lower "Atlantis") as [Hbad _].
    destruct Hbad as (_ & -> & _); [compute_done | reflexivity].
  - destruct (country_validation_uniform sample_df sample_columns flat_model
                broken_model trend_model sample_mae sample_mse sample_r2
                sample_unicode_lower "Brazil") as [_ Hok].
    destruct (Hok Brazil_known) as (_ & H & _). exact H.
Defined.

Lemma model_inputs_exclude_target_witness :
  ∃ X row,
    EvPredict "lasso" X
    ∈ trace (compare sample_df sample_columns flat_model broken_model
                     trend_model "Brazil")
    ∧ rows X !! 0%nat = Some row
    ∧ row !! TARGET_COL = None.
Proof.
  set (X := getitem_columns (history sample_df "Brazil")
              (FEATURE_COLUMNS sample_columns)).
  assert (EvPredict "lasso" X
          ∈ trace (compare sample_df sample_columns flat_model broken_model
                           trend_model "Brazil")) as Hin.
  { rewrite (compare_valid_run sample_df sample_columns flat_model
               broken_model trend_model "Brazil" Brazil_known).
    left. }
  destruct (rows X !! 0%nat) as [row|] eqn:Hrow.
  - exists X, row. split; [exact Hin|]. split; [exact Hrow|].
    apply (model_inputs_exclude_target sample_df sample_columns flat_model
             broken_model trend_model sample_mae sample_mse sample_r2
             sample_unicode_lower "lasso" X row).
    + right. left. exists "Brazil". exact Hin.
    + eapply list_elem_of_lookup_2. exact Hrow.
  - exfalso. apply lookup_ge_None in Hrow. revert Hrow.
    unfold X. cbn [rows getitem_columns]. rewrite length_map.
    rewrite <- (length_map Target), Brazil_targets. cbn. lia.
Defined.

Lemma predict_agrees_with_compare_witness :
  ∃ tr resp res,
    predict sample_df sample_columns flat_model broken_model trend_model
            sample_unicode_lower (mkPredictInput "Brazil" 2025 ["knn"])
    = (tr, Return resp)
    ∧ result (compare sample_df sample_columns flat_model broken_model
                      trend_model "Brazil") = Return res
    ∧ PredictResponse.values resp
      = compare_field res (PredictResponse.model_used resp)
        ++ [PredictResponse.predicted resp].
Proof.
  destruct sample_predict_returns as (tr & resp & Hrun).
  destruct (predict_agrees_with_compare _ _ _ _ _ _ _ _ _ Hrun)
    as (res & a & Hc & _ & _ & _ & Hv).
  exists tr, resp, res. split; [exact Hrun|]. split; [exact Hc | exact Hv].
Defined.

Lemma predict_response_shape_witness :
  ∃ tr resp,
    predict sample_df sample_columns flat_model broken_model trend_model
            sample_unicode_lower (mkPredictInput "Brazil" 2025 ["knn"])
    = (tr, Return resp)
    ∧ last (PredictResponse.years resp) = Some 2025%Z
    ∧ length (PredictResponse.values resp)
      = length (PredictResponse.years resp).
Proof.
  destruct sample_predict_returns as (tr & resp & Hrun).
  destruct (predict_response_shape _ _ _ _ _ _ _ _ _ Hrun)
    as (Hy & _ & _ & _ & Hlen).
  exists tr, resp. split; [exact Hrun|]. split; [exact Hy|].
  exact (Hlen trend_model_one_per_row).
Defined.

Lemma analysis_rows_exact_witness :
  "Brazil" ∈ COUNTRIES sample_df
  ∧ ∃ a,
      country_analysis sample_df "Brazil" = ([], Return a)
      ∧ length (AnalysisResponse.years a) = 3%nat.
Proof.
  split; [exact Brazil_known|].
  destruct (analysis_rows_exact sample_df "Brazil" Brazil_known)
    as (a & Hrun & Hlen & _).
  exists a. split; [exact Hrun|]. rewrite Hlen. vm_compute. reflexivity.
Defined.

Lemma band_exact_fit_witness :
  ∃ tr resp,
    predict sample_df sample_columns flat_model broken_model trend_model
            sample_unicode_lower (mkPredictInput "Brazil" 2025 ["knn"])
    = (tr, Return resp)
    ∧ PredictResponse.band resp !! 3%nat
      = Some (PredictResponse.predicted resp, PredictResponse.predicted resp).
Proof.
  destruct sample_predict_returns as (tr & resp & Hrun).
  exists tr, resp. split; [exact Hrun|].
  destruct (band_exact_fit _ _ _ _ _ _ _ _ _ Hrun) as [_ Hband].
  - cbn [models country]. change (run_predict trend_model
             (getitem_columns (history sample_df "Brazil")
                (FEATURE_COLUMNS sample_columns))
           = inr (map Target (history sample_df "Brazil"))).
    rewrite trend_model_fit, Brazil_targets. repeat f_equal; lra.
  - apply Hband.
    destruct (predict_Return_inv _ _ _ _ _ _ _ _ _ Hrun)
      as (y_fit & p & y_future & cur & errors & _ & _ & Hfit & _ & _ & _
          & _ & _ & ->).
    change (run_predict trend_model
              (getitem_columns (history sample_df "Brazil")
                 (FEATURE_COLUMNS sample_columns)) = inr y_fit) in Hfit.
    rewrite trend_model_fit in Hfit. injection Hfit as <-. reflexivity.
Defined.

Lemma change_sign_witness :
  ∃ tr resp,
    predict sample_df sample_columns flat_model broken_model trend_model
            sample_unicode_lower (mkPredictInput "Brazil" 2025 ["knn"])
    = (tr, Return resp)
    ∧ (PredictResponse.predicted resp = PredictResponse.current resp →
       PredictResponse.change resp = 0%R).
Proof.
  destruct sample_predict_returns as (tr & resp & Hrun).
  exists tr, resp. split; [exact Hrun|].
  destruct (change_sign _ _ _ _ _ _ _ _ _ Hrun) as (_ & _ & H). exact H.
Defined.

Lemma X_pred_last_year_witness :
  X_pred (getitem_columns (history sample_df "Brazil")
            (FEATURE_COLUMNS sample_columns)) "Brazil" 2020
  = iloc_last (getitem_columns (history sample_df "Brazil")
                 (FEATURE_COLUMNS sample_columns)).
Proof.
  apply (X_pred_last_year sample_df sample_columns "Brazil"
           (sample_row "Brazil" 2020 110%R)).
  - compute_done.
  - vm_compute. reflexivity.
Defined.

Lemma select_case_insensitive_witness :
  select flat_model broken_model trend_model sample_unicode_lower
    ["SVM"; "Knn"]
  = select flat_model broken_model trend_model sample_unicode_lower
      ["svm"; "kNN"].
Proof.
  apply select_case_insensitive. repeat constructor.
Defined.

Lemma load_model_map_all_or_nothing_witness :
  (∃ reg, load_model_map sample_fs = ([], Return reg))
  ∧ result (load_model_map sample_fs_no_ridge)
    = Raise (PyException "RuntimeError"
               "Model file missing: models/ridge_fixed.pkl").
Proof.
  split.
  - destruct (load_model_map_all_or_nothing sample_fs) as ([_ Hall] & _).
    apply Hall. intros f Hf.
    repeat (apply elem_of_cons in Hf as [->|Hf]; [eexists; reflexivity|]).
    apply elem_of_nil in Hf. destruct Hf.
  - destruct (load_model_map_all_or_nothing sample_fs_no_ridge)
      as (_ & _ & Hmiss).
    apply (Hmiss ["lasso_fixed.pkl"] "ridge_fixed.pkl" ["knn_fixed.pkl"]).
    + reflexivity.
    + intros g Hg. apply list_elem_of_singleton in Hg as ->.
      eexists. reflexivity.
    + reflexivity.
Defined.

Lemma metrics_perfect_fit_witness :
  ∃ results entry,
    result (metrics sample_df sample_columns flat_model broken_model
                    trend_model sample_mae sample_mse sample_r2 "Brazil")
    = Return results
    ∧ results !! "knn" = Some entry
    ∧ MetricsEntry.MAPE entry = Some 0%R.
Proof.
  destruct (metrics_perfect_fit sample_df sample_columns flat_model
              broken_model trend_model sample_mae sample_mse sample_r2
              "Brazil" "knn" trend_model)
    as (tr & results & entry & Hrun & Hres & Hmape).
  - exact Brazil_known.
  - right. right. left.
  - apply sample_metric_returns.
  - apply sample_metric_returns.
  - apply sample_metric_returns.
  - rewrite trend_model_fit, Brazil_targets.
    repeat f_equal; lra.
  - exists results, entry. rewrite Hrun. split; [reflexivity|].
    split; [exact Hres|]. rewrite Hmape, Brazil_targets.
    rewrite decide_False; [reflexivity|].
    intros Hall. apply Forall_cons in Hall as [H100 _]. lra.
Defined.

Lemma select_app_witness :
  select flat_model broken_model trend_model sample_unicode_lower
    (["svm"; "KNN"] ++ ["lasso"])
  = select flat_model broken_model trend_model sample_unicode_lower
      ["svm"; "KNN"]
  ∧ select flat_model broken_model trend_model sample_unicode_lower
      (["svm"] ++ ["Ridge"])
    = select flat_model broken_model trend_model sample_unicode_lower
        ["Ridge"]
  ∧ select flat_model broken_model trend_model sample_unicode_lower
      ([kelvin_NN] ++ ["ridge"])
    = select flat_model broken_model trend_model sample_unicode_lower
        [kelvin_NN].
Proof.
  split; [|split].
  - destruct (select_app flat_model broken_model trend_model
                sample_unicode_lower ["svm"; "KNN"] ["lasso"]) as [Hex _].
    apply Hex. apply Exists_cons. right. apply Exists_cons. left.
    eexists. reflexivity.
  - destruct (select_app flat_model broken_model trend_model
                sample_unicode_lower ["svm"] ["Ridge"]) as [_ Hall].
    apply Hall. repeat constructor.
  - destruct (select_app flat_model broken_model trend_model
                sample_unicode_lower [kelvin_NN] ["ridge"]) as [Hex _].
    apply Hex. apply Exists_cons. left. eexists. reflexivity.
Defined.

Lemma compare_series_aligned_witness :
  "Brazil" ∈ COUNTRIES sample_df
  ∧ ∃ res,
      result (compare sample_df sample_columns flat_model broken_model
                      trend_model "Brazil") = Return res
      ∧ length (compare_field res "knn")
        = length (CompareResponse.years res).
Proof.
  split; [exact Brazil_known|].
  destruct (compare_series_aligned sample_df sample_columns flat_model
              broken_model trend_model "Brazil" "knn" trend_model
              Brazil_known)
    as (res & Hrun & _ & Hlen).
  - right. right. left.
  - exact trend_model_one_per_row.
  - exists res. split; [exact Hrun|].
    rewrite trend_model_fit in Hlen. exact Hlen.
Defined.
